(** * infer_google_vision_landmark_detection: the landmark adapter

    A shallow embedding of [infer_google_vision_landmark_detection_process.py]:
    the parameter class with its dictionary exchange, and the [run] method of
    the task, together with the properties of the response-to-detection
    mapping.

    Python objects that [run] mutates and that outlive a run ([self.client],
    [os.environ], the [data] attribute of the dictionary output) form the
    state; calls into the host runtime, the vision SDK and [print] are
    recorded as events, in program order.

    [run] is the run in which the service answers with a given response;
    [run_with] is the run with the failure paths of the calls that come
    before the response (the assignment to the environment, the client
    constructor, the JPEG encoder, the service call). *)

From Stdlib Require Import ZArith Lia Ascii SpecFloat.
From stdpp Require Import gmap strings list sorting.

Local Open Scope string_scope.
Local Open Scope Z_scope.
Local Open Scope list_scope.

(** ** Python values *)

(** A Python [float] is an IEEE 754 binary64 value. *)
Abbreviation float := spec_float.

Definition prec : Z := 53.
Definition emax : Z := 1024.

Definition is_nan (f : float) : bool :=
  match f with S754_nan => true | _ => false end.

Definition is_finite (f : float) : bool :=
  match f with S754_zero _ | S754_finite _ _ _ => true | _ => false end.

(** The integer a float denotes, when it denotes one. *)
Definition SF2Z (f : float) : option Z :=
  match f with
  | S754_zero _ => Some 0
  | S754_finite s m (Zneg k) =>
      if (Zpos m mod 2 ^ Zpos k =? 0)%Z
      then Some (cond_Zopp s (Zpos m / 2 ^ Zpos k)) else None
  | S754_finite s m e => Some (cond_Zopp s (Zpos m * 2 ^ e))
  | _ => None
  end.

Inductive PyException : Type :=
  | Exception (msg : string)
  | IndexError
  | KeyError (key : string)
  | ValueError
  | OverflowError
  | LibraryError (name : string) (msg : string).  (* raised inside a library call *)

Inductive Outcome (A : Type) : Type :=
  | Returned (a : A)
  | Raised (e : PyException).
Arguments Returned {A} a.
Arguments Raised {A} e.

Definition raises {A} (o : Outcome A) : Prop := exists e, o = Raised e.

(** ** Data exchanged with the vision service *)

(** [Vertex] of the vision API: two [int32] coordinates. *)
Record Vertex := { vx : Z; vy : Z }.

Record LatLng := { latitude : float; longitude : float }.

(** The fields of an [EntityAnnotation] that [run] consumes. *)
Record EntityAnnotation := {
  description : string;
  score : float;
  bounding_poly : list Vertex;
  locations : list LatLng
}.

Record Response := {
  error_message : string;                       (* response.error.message *)
  landmark_annotations : list EntityAnnotation  (* response.landmark_annotations *)
}.

(** An image array of shape height x width x channels. *)
Abbreviation image := (list (list (list Z))).

(** [ImageAnnotatorClient]: the SDK client takes its credential source from
    the process environment at the moment it is built. *)
Record Client := {
  client_serial : nat;
  client_credentials : option string
}.

(** ** Host side *)

(** Arguments of one [add_object] call. *)
Record DetectionBox := {
  box_id : nat;
  box_class : Z;
  box_confidence : float;
  box_x : float;
  box_y : float;
  box_w : Z;
  box_h : Z
}.

Inductive Event : Type :=
  | BeginTaskRun
  | NewClient (c : Client)
  | LandmarkDetection (c : Client) (byte_stream : list Z)
  | Print (line : string)
  | SetNames (names : list string)
  | AddObject (b : DetectionBox)
  | EmitStepProgress
  | EndTaskRun.

Definition add_object_calls (evs : list Event) : list DetectionBox :=
  omap (fun ev => match ev with AddObject b => Some b | _ => None end) evs.

Definition set_names_calls (evs : list Event) : list (list string) :=
  omap (fun ev => match ev with SetNames ns => Some ns | _ => None end) evs.

Definition printed (evs : list Event) : list string :=
  omap (fun ev => match ev with Print s => Some s | _ => None end) evs.

Definition new_clients (evs : list Event) : list Client :=
  omap (fun ev => match ev with NewClient c => Some c | _ => None end) evs.

Definition clients_used (evs : list Event) : list Client :=
  omap (fun ev => match ev with LandmarkDetection c _ => Some c | _ => None end) evs.

(** ** Parameters *)

Record InferGoogleVisionLandmarkDetectionParam := {
  conf_thres : float;
  google_application_credentials : string
}.

Abbreviation Param := InferGoogleVisionLandmarkDetectionParam.

(** ** State of a task instance *)

Record TaskState := {
  client : option Client;                 (* self.client *)
  environ : gmap string string;           (* os.environ *)
  output_dict_data : gmap string string;  (* self.get_output(2).data *)
  clients_built : nat                     (* clients built by the process so far *)
}.

Definition set_client (c : Client) (st : TaskState) : TaskState :=
  {| client := Some c; environ := environ st;
     output_dict_data := output_dict_data st;
     clients_built := S (clients_built st) |}.

Definition set_environ (k v : string) (st : TaskState) : TaskState :=
  {| client := client st; environ := <[k := v]> (environ st);
     output_dict_data := output_dict_data st;
     clients_built := clients_built st |}.

Definition set_output_dict_data (d : gmap string string) (st : TaskState) : TaskState :=
  {| client := client st; environ := environ st;
     output_dict_data := d;
     clients_built := clients_built st |}.

(** ** Library functions outside the repository

    [str] and [float] between floats and strings, the text rendering of one
    annotation message, and JPEG encoding. *)
Class Runtime := {
  float_str : float -> string;            (* str(x), x a float *)
  float_parse : string -> option float;   (* float(s); None is ValueError *)
  annotation_repr : EntityAnnotation -> string;
  imencode_jpg : image -> list Z          (* cv2.imencode(".jpg", img)[1] *)
}.

(** ** The monad of [run]: state, events, exceptions *)

Definition Py (A : Type) : Type :=
  TaskState -> Outcome A * TaskState * list Event.

Definition ret {A} (a : A) : Py A := fun st => (Returned a, st, []).

Definition bind {A B} (m : Py A) (k : A -> Py B) : Py B :=
  fun st =>
    match m st with
    | (Returned a, st1, evs1) =>
        let '(o, st2, evs2) := k a st1 in (o, st2, evs1 ++ evs2)
    | (Raised e, st1, evs1) => (Raised e, st1, evs1)
    end.

(** What a computation leaves behind when started in a state. *)
Definition outcome {A} (r : Outcome A * TaskState * list Event) : Outcome A := r.1.1.
Definition final_state {A} (r : Outcome A * TaskState * list Event) : TaskState := r.1.2.
Definition events {A} (r : Outcome A * TaskState * list Event) : list Event := r.2.

Definition raise {A} (e : PyException) : Py A := fun st => (Raised e, st, []).
Definition emit (ev : Event) : Py unit := fun st => (Returned tt, st, [ev]).
Definition get_state : Py TaskState := fun st => (Returned st, st, []).
Definition modify (f : TaskState -> TaskState) : Py unit :=
  fun st => (Returned tt, f st, []).

Declare Scope py_scope.
Delimit Scope py_scope with py.
Notation "x <- m ;; k" := (bind m (fun x => k))
  (at level 100, m at next level, right associativity) : py_scope.
Notation "m ;; k" := (bind m (fun _ => k))
  (at level 100, right associativity) : py_scope.

(** [for x in l: body x] *)
Fixpoint for_each {A} (l : list A) (body : A -> Py unit) : Py unit :=
  match l with
  | [] => ret tt
  | x :: l' => (body x ;; for_each l' body)%py
  end.

(** [when c m] is [if c: m]. *)
Definition when (c : bool) (m : Py unit) : Py unit := if c then m else ret tt.

(** [l[i]] for a non-negative index. *)
Definition py_index {A} (l : list A) (i : nat) : Py A :=
  match l !! i with
  | Some x => ret x
  | None => raise IndexError
  end.

(** [float(z)] for an integer: correctly rounded, [OverflowError] beyond the
    range of binary64. *)
Definition float_of_int (z : Z) : float := binary_normalize prec emax z 0 false.

Definition py_float (z : Z) : Py float :=
  match float_of_int z with
  | S754_infinity _ => raise OverflowError
  | f => ret f
  end.

(** [enumerate(l)] *)
Fixpoint enumerate_from {A} (n : nat) (l : list A) : list (nat * A) :=
  match l with
  | [] => []
  | x :: l' => (n, x) :: enumerate_from (S n) l'
  end.

Definition enumerate {A} (l : list A) : list (nat * A) := enumerate_from 0 l.

(** Truth value of a string: non-empty. *)
Definition truthy (s : string) : bool :=
  match s with EmptyString => false | _ => true end.

Definition nl : string := String (Ascii.ascii_of_nat 10) EmptyString.

Fixpoint join (sep : string) (l : list string) : string :=
  match l with
  | [] => ""
  | [s] => s
  | s :: l' => s +:+ sep +:+ join sep l'
  end.

(** [repr] of a list whose items have the given renderings. *)
Definition py_list_repr (items : list string) : string :=
  "[" +:+ join ", " items +:+ "]".

(** ** InferGoogleVisionLandmarkDetectionParam *)

Definition default_param : Param :=
  {| conf_thres := S754_finite false 7205759403792794 (-55);   (* 0.2 *)
     google_application_credentials := "" |}.

Section Adapter.
Context `{RT : Runtime}.

Definition set_values (params : gmap string string) (self : Param)
  : Outcome unit * Param :=
  match params !! "conf_thres" with
  | None => (Raised (KeyError "conf_thres"), self)
  | Some s =>
      match float_parse s with
      | None => (Raised ValueError, self)
      | Some f =>
          let self1 := {| conf_thres := f;
                          google_application_credentials :=
                            google_application_credentials self |} in
          match params !! "google_application_credentials" with
          | None => (Raised (KeyError "google_application_credentials"), self1)
          | Some c =>
              (Returned tt,
               {| conf_thres := conf_thres self1;
                  google_application_credentials := c |})
          end
      end
  end.

Definition get_values (self : Param) : gmap string string :=
  let params : gmap string string := ∅ in
  let params := <["conf_thres" := float_str (conf_thres self)]> params in
  let params := <["google_application_credentials" :=
                    google_application_credentials self]> params in
  params.

(** ** InferGoogleVisionLandmarkDetection *)

(** State of a task right after [__init__], in a process with the given
    environment. *)
Definition new_task (env : gmap string string) (built : nat) : TaskState :=
  {| client := None; environ := env; output_dict_data := ∅;
     clients_built := built |}.

Definition get_progress_steps : Z := 1.

Definition credentials_var : string := "GOOGLE_APPLICATION_CREDENTIALS".

Definition documentation_pointer : string :=
  nl +:+ "For more info on error messages, check: " +:+
  "https://cloud.google.com/apis/design/errors".

(** [vision.ImageAnnotatorClient()] *)
Definition ImageAnnotatorClient : Py Client :=
  (st <- get_state ;;
   let c := {| client_serial := clients_built st;
               client_credentials :=
                 environ st !! credentials_var |} in
   emit (NewClient c) ;;
   ret c)%py.

(** Lines 74-77: the client is built when [self.client] is [None].  The
    assignment to [os.environ] and the constructor are taken to return here;
    [acquire_client_with] below has their failure paths. *)
Definition acquire_client (param : Param) : Py Client :=
  (st <- get_state ;;
   match client st with
   | None =>
       when (truthy (google_application_credentials param))
            (modify (set_environ credentials_var
                       (google_application_credentials param))) ;;
       c <- ImageAnnotatorClient ;;
       modify (set_client c) ;;
       ret c
   | Some c => ret c
   end)%py.

(** [src_image[..., ::-1]] *)
Definition reverse_channels (img : image) : image :=
  map (map (@rev Z)) img.

Definition location_line (landmark : EntityAnnotation) (location : LatLng) : string :=
  description landmark +:+ ", Latitude: " +:+ float_str (latitude location) +:+
  ", Longitude: " +:+ float_str (longitude location).

(** Body of the loop, lines 99-116, for one [(i, landmark)]. *)
Definition process_landmark (param : Param) (il : nat * EntityAnnotation) : Py unit :=
  let '(i, landmark) := il in
  if SFltb (score landmark) (conf_thres param) then ret tt
  else
    (let vertices := map (fun vertex => (vx vertex, vy vertex)) (bounding_poly landmark) in
     v0 <- py_index vertices 0 ;;
     let x_box := fst v0 in
     v0' <- py_index vertices 0 ;;
     let y_box := snd v0' in
     v1 <- py_index vertices 1 ;;
     let w := fst v1 - x_box in
     v2 <- py_index vertices 2 ;;
     let h := snd v2 - y_box in
     let description := description landmark in
     emit (SetNames [description]) ;;
     fx <- py_float x_box ;;
     fy <- py_float y_box ;;
     emit (AddObject {| box_id := i; box_class := 0;
                        box_confidence := score landmark;
                        box_x := fx; box_y := fy; box_w := w; box_h := h |}) ;;
     for_each (locations landmark)
       (fun location => emit (Print (location_line landmark location))))%py.

Definition landmarks_str (landmarks : list EntityAnnotation) : string :=
  py_list_repr (map annotation_repr landmarks).

(** [run], for a run in which the service answers [response]: the calls of
    lines 76, 77, 81 and 84 are taken to return.  [run_with] below is [run]
    with the failure paths of these calls. *)
Definition run (param : Param) (src_image : image) (response : Response) : Py unit :=
  (emit BeginTaskRun ;;
   c <- acquire_client param ;;
   let src_image := reverse_channels src_image in
   let image_buffer := imencode_jpg src_image in
   emit (LandmarkDetection c image_buffer) ;;
   when (truthy (error_message response))
        (raise (Exception (error_message response +:+ documentation_pointer))) ;;
   let landmarks := landmark_annotations response in
   when (length landmarks =? 0)%nat (emit (Print "No landmark detected")) ;;
   for_each (enumerate landmarks) (process_landmark param) ;;
   modify (set_output_dict_data {[ "Landmarks" := landmarks_str landmarks ]}) ;;
   emit EmitStepProgress ;;
   emit EndTaskRun)%py.

(** Inputs of one run: the parameters in force, the image at input 0, and
    what the service answers to the request. *)
Record RunInput := {
  in_param : Param;
  in_image : image;
  in_response : Response
}.

(** Successive runs on one task instance; an exception ends a run, not the
    session. *)
Fixpoint run_session (inputs : list RunInput) (st : TaskState)
  : TaskState * list Event :=
  match inputs with
  | [] => (st, [])
  | i :: rest =>
      let '(_, st1, evs1) := run (in_param i) (in_image i) (in_response i) st in
      let '(st2, evs2) := run_session rest st1 in
      (st2, evs1 ++ evs2)
  end.

End Adapter.

(** ** [run] with the calls that can fail before a response is there *)

(** What the library calls of one run do: the client constructor and the JPEG
    encoder return or raise, and the service call returns a response or
    raises. *)
Record Calls := {
  client_call : option PyException;     (* vision.ImageAnnotatorClient() *)
  imencode_call : option PyException;   (* cv2.imencode(".jpg", src_image) *)
  service_call : Outcome Response       (* self.client.landmark_detection(...) *)
}.

(** A string with an embedded null character. *)
Fixpoint has_nul (s : string) : bool :=
  match s with
  | EmptyString => false
  | String c s' => Ascii.eqb c (Ascii.ascii_of_nat 0) || has_nul s'
  end.

(** [os.environ[k] = v]: [ValueError] for a value with an embedded null
    character, and then nothing is written. *)
Definition environ_setitem (k v : string) : Py unit :=
  if has_nul v then raise ValueError else modify (set_environ k v).

(** One attempt at a run: what the library calls do, the parameters in force,
    the image at input 0. *)
Record Attempt := {
  at_calls : Calls;
  at_param : Param;
  at_image : image
}.


Section AdapterCalls.
Context `{RT : Runtime}.

(** [vision.ImageAnnotatorClient()] *)
Definition construct_client (calls : Calls) : Py Client :=
  match client_call calls with
  | Some e => raise e
  | None => ImageAnnotatorClient
  end.

(** Lines 74-77. *)
Definition acquire_client_with (calls : Calls) (param : Param) : Py Client :=
  (st <- get_state ;;
   match client st with
   | None =>
       when (truthy (google_application_credentials param))
            (environ_setitem credentials_var
               (google_application_credentials param)) ;;
       c <- construct_client calls ;;
       modify (set_client c) ;;
       ret c
   | Some c => ret c
   end)%py.

(** [cv2.imencode(".jpg", src_image)[1]] *)
Definition imencode (calls : Calls) (src_image : image) : Py (list Z) :=
  match imencode_call calls with
  | Some e => raise e
  | None => ret (imencode_jpg src_image)
  end.

(** [self.client.landmark_detection(image=byte_stream)] *)
Definition landmark_detection (calls : Calls) (c : Client)
    (byte_stream : list Z) : Py Response :=
  (emit (LandmarkDetection c byte_stream) ;;
   match service_call calls with
   | Returned response => ret response
   | Raised e => raise e
   end)%py.

(** Lines 86-123: what [run] does with the response. *)
Definition handle_response (param : Param) (response : Response) : Py unit :=
  (when (truthy (error_message response))
        (raise (Exception (error_message response +:+ documentation_pointer))) ;;
   let landmarks := landmark_annotations response in
   when (length landmarks =? 0)%nat (emit (Print "No landmark detected")) ;;
   for_each (enumerate landmarks) (process_landmark param) ;;
   modify (set_output_dict_data {[ "Landmarks" := landmarks_str landmarks ]}) ;;
   emit EmitStepProgress ;;
   emit EndTaskRun)%py.

Definition run_with (calls : Calls) (param : Param) (src_image : image) : Py unit :=
  (emit BeginTaskRun ;;
   c <- acquire_client_with calls param ;;
   let src_image := reverse_channels src_image in
   image_buffer <- imencode calls src_image ;;
   response <- landmark_detection calls c image_buffer ;;
   handle_response param response)%py.

(** Successive attempts on one task instance. *)
Fixpoint run_session_with (attempts : list Attempt) (st : TaskState)
  : TaskState * list Event :=
  match attempts with
  | [] => (st, [])
  | a :: rest =>
      let '(_, st1, evs1) := run_with (at_calls a) (at_param a) (at_image a) st in
      let '(st2, evs2) := run_session_with rest st1 in
      (st2, evs1 ++ evs2)
  end.

(** The run gets a client. *)
Definition acquires (calls : Calls) (param : Param) (st : TaskState) : Prop :=
  exists c st1 evs0, acquire_client_with calls param st = (Returned c, st1, evs0).

(** The run gets the response [response] from the service. *)
Definition answered (calls : Calls) (param : Param) (st : TaskState)
    (response : Response) : Prop :=
  acquires calls param st /\ imencode_call calls = None /\
  service_call calls = Returned response.

End AdapterCalls.

(** ** Well-formed responses

    The vision API types a vertex coordinate as [int32], reports a landmark
    region by its four corners and a score in the unit interval. *)

Definition int32 (z : Z) : bool := (- 2 ^ 31 <=? z) && (z <? 2 ^ 31).

Definition wf_vertex (v : Vertex) : bool := int32 (vx v) && int32 (vy v).

Definition wf_polygon (a : EntityAnnotation) : bool :=
  (length (bounding_poly a) =? 4)%nat && forallb wf_vertex (bounding_poly a).


(** The test of line 99, negated: the annotation gets past the [continue]. *)
Definition retained (param : Param) (a : EntityAnnotation) : bool :=
  negb (SFltb (score a) (conf_thres param)).

Definition retained_landmarks (param : Param) (l : list EntityAnnotation)
  : list (nat * EntityAnnotation) :=
  filter (fun il => retained param il.2 = true) (enumerate l).

(** Every annotation that gets past the filter has a complete polygon. *)
Definition polygons_ok (param : Param) (l : list (nat * EntityAnnotation)) : Prop :=
  Forall (fun il => retained param il.2 = true -> wf_polygon il.2 = true) l.

(** What one pass through the loop body does for an annotation with a
    complete polygon: the box handed to [add_object], and the events. *)

Definition vertex_at (a : EntityAnnotation) (k : nat) : Vertex :=
  default {| vx := 0; vy := 0 |} (bounding_poly a !! k).

Definition box_of (il : nat * EntityAnnotation) : DetectionBox :=
  let a := il.2 in
  {| box_id := il.1; box_class := 0; box_confidence := score a;
     box_x := float_of_int (vx (vertex_at a 0));
     box_y := float_of_int (vy (vertex_at a 0));
     box_w := vx (vertex_at a 1) - vx (vertex_at a 0);
     box_h := vy (vertex_at a 2) - vy (vertex_at a 0) |}.

Definition landmark_events `{RT : Runtime} (param : Param)
    (il : nat * EntityAnnotation) : list Event :=
  if retained param il.2 then
    SetNames [description il.2] :: AddObject (box_of il) ::
    map (fun location => Print (location_line il.2 location)) (locations il.2)
  else [].

(** The environment once the client has been acquired. *)
Definition environ_after (param : Param) (st : TaskState) : gmap string string :=
  match client st with
  | None =>
      if truthy (google_application_credentials param)
      then <[credentials_var := google_application_credentials param]> (environ st)
      else environ st
  | Some _ => environ st
  end.

(** The request of line 84. *)
Definition request `{RT : Runtime} (c : Client) (src_image : image) : Event :=
  LandmarkDetection c (imencode_jpg (reverse_channels src_image)).

(** Lines 94-95. *)
Definition notice (landmarks : list EntityAnnotation) : list Event :=
  if (length landmarks =? 0)%nat then [Print "No landmark detected"] else [].

(** A computation that leaves the task state alone and makes no SDK call. *)
Definition local {A} (m : Py A) : Prop :=
  forall st, final_state (m st) = st /\
             new_clients (events (m st)) = [] /\
             clients_used (events (m st)) = [].

(** ** Sample data

    A small runtime and a few responses on which the definitions can be
    evaluated. *)

Definition f0_1 : float := S754_finite false 7205759403792794 (-56).  (* 0.1 *)
Definition f0_2 : float := S754_finite false 7205759403792794 (-55).  (* 0.2 *)
Definition f0_5 : float := S754_finite false 4503599627370496 (-53).  (* 0.5 *)
Definition f0_9 : float := S754_finite false 8106479329266893 (-53).  (* 0.9 *)

Definition sample_float_str (f : float) : string :=
  match f with
  | S754_finite false 7205759403792794 (-56) => "0.1"
  | S754_finite false 7205759403792794 (-55) => "0.2"
  | S754_finite false 4503599627370496 (-53) => "0.5"
  | S754_finite false 8106479329266893 (-53) => "0.9"
  | S754_zero false => "0.0"
  | _ => "nan"
  end.

Definition sample_float_parse (s : string) : option float :=
  if String.eqb s "0.1" then Some f0_1
  else if String.eqb s "0.2" then Some f0_2
  else if String.eqb s "0.5" then Some f0_5
  else if String.eqb s "0.9" then Some f0_9
  else if String.eqb s "0.0" then Some (S754_zero false)
  else if String.eqb s "nan" then Some S754_nan
  else None.

Definition sample_runtime : Runtime :=
  {| float_str := sample_float_str;
     float_parse := sample_float_parse;
     annotation_repr := fun a => "description: " +:+ description a;
     imencode_jpg := fun img => concat (concat img) |}.

Definition rect (x0 y0 x1 y1 : Z) : list Vertex :=
  [ {| vx := x0; vy := y0 |}; {| vx := x1; vy := y0 |};
    {| vx := x1; vy := y1 |}; {| vx := x0; vy := y1 |} ].

Definition eiffel : EntityAnnotation :=
  {| description := "Eiffel Tower"; score := f0_9;
     bounding_poly := rect 10 20 110 220;
     locations := [ {| latitude := f0_5; longitude := f0_1 |} ] |}.

Definition louvre : EntityAnnotation :=
  {| description := "Louvre"; score := f0_1;
     bounding_poly := rect 5 6 50 60; locations := [] |}.

Definition pantheon : EntityAnnotation :=
  {| description := "Pantheon"; score := f0_2;
     bounding_poly := rect 300 40 200 10; locations := [] |}.

(** An annotation whose polygon stops after two vertices. *)
Definition fragment : EntityAnnotation :=
  {| description := "Fragment"; score := f0_9;
     bounding_poly := [ {| vx := 1; vy := 2 |}; {| vx := 3; vy := 2 |} ];
     locations := [] |}.

Definition sample_image : image := [ [ [1; 2; 3]; [4; 5; 6] ] ].

Definition ok_response (l : list EntityAnnotation) : Response :=
  {| error_message := ""; landmark_annotations := l |}.

Definition sample_state : TaskState := @new_task ∅ 0.

Definition mixed_response : Response := ok_response [louvre; eiffel; pantheon].

Definition failed_response : Response :=
  {| error_message := "Invalid image"; landmark_annotations := [eiffel] |}.

Definition first_input : RunInput :=
  {| in_param := {| conf_thres := f0_2;
                    google_application_credentials := "key.json" |};
     in_image := sample_image; in_response := mixed_response |}.

Definition later_input : RunInput :=
  {| in_param := {| conf_thres := f0_5;
                    google_application_credentials := "other.json" |};
     in_image := sample_image; in_response := failed_response |}.

Definition partial_dict : gmap string string := {[ "conf_thres" := "0.5" ]}.

Definition nan_param : Param :=
  {| conf_thres := S754_nan; google_application_credentials := "" |}.

(** Calls that all return, the service answering [response]. *)
Definition returning (response : Response) : Calls :=
  {| client_call := None; imencode_call := None;
     service_call := Returned response |}.

(** A credentials path with an embedded null character. *)
Definition nul_path : string :=
  "a" +:+ String (Ascii.ascii_of_nat 0) "b".

Definition nul_attempt : Attempt :=
  {| at_calls := returning mixed_response;
     at_param := {| conf_thres := f0_2;
                    google_application_credentials := nul_path |};
     at_image := sample_image |}.

Definition key_attempt : Attempt :=
  {| at_calls := returning mixed_response;
     at_param := {| conf_thres := f0_2;
                    google_application_credentials := "key.json" |};
     at_image := sample_image |}.

Definition other_attempt : Attempt :=
  {| at_calls := returning failed_response;
     at_param := {| conf_thres := f0_5;
                    google_application_credentials := "other.json" |};
     at_image := sample_image |}.

(** The encoder rejects the image. *)
Definition unencodable : Calls :=
  {| client_call := None;
     imencode_call := Some (LibraryError "cv2.error" "");
     service_call := Returned mixed_response |}.

(** ** Further views of the events *)

(** The calls that frame a run for the host: [begin_task_run],
    [emit_step_progress], [end_task_run]. *)
Definition signals (evs : list Event) : list Event :=
  omap (fun ev => match ev with
                  | BeginTaskRun | EmitStepProgress | EndTaskRun => Some ev
                  | _ => None
                  end) evs.

(** The number of [emit_step_progress] calls. *)
Definition progress_steps (evs : list Event) : nat :=
  length (omap (fun ev => match ev with
                          | EmitStepProgress => Some tt
                          | _ => None
                          end) evs).

(** The [landmark_detection] calls, each with its client and payload. *)
Definition requests (evs : list Event) : list (Client * list Z) :=
  omap (fun ev => match ev with
                  | LandmarkDetection c b => Some (c, b)
                  | _ => None
                  end) evs.

(** The events the loop of lines 98-116 can produce. *)
Definition is_loop_event (ev : Event) : bool :=
  match ev with Print _ | SetNames _ | AddObject _ => true | _ => false end.

Definition loop_only {A} (m : Py A) : Prop :=
  forall st, final_state (m st) = st /\
             Forall (fun ev => is_loop_event ev = true) (events (m st)).

(** The lines a retained annotation prints, one per location. *)
Definition location_lines `{RT : Runtime} (il : nat * EntityAnnotation)
  : list string :=
  map (location_line il.2) (locations il.2).

(** ** InferGoogleVisionLandmarkDetectionFactory and the task constructor *)








(** ** The courses of a run with calls that fail *)

Section Courses.
Context `{RT : Runtime}.

(** The state a failed attempt at the client leaves: the variable may have
    been written, nothing else has changed. *)
Definition after_setitem (param : Param) (st : TaskState) : TaskState :=
  if truthy (google_application_credentials param)
  then set_environ credentials_var (google_application_credentials param) st
  else st.

(** The environment after the attempt at the client. *)
Definition environ_written (param : Param) (st : TaskState)
  : gmap string string :=
  match client st with
  | None =>
      if truthy (google_application_credentials param) &&
         negb (has_nul (google_application_credentials param))
      then <[credentials_var := google_application_credentials param]>
             (environ st)
      else environ st
  | Some _ => environ st
  end.

(** The ways the client is acquired, or not. *)
Inductive acquisition (calls : Calls) (param : Param) (st : TaskState)
  : Outcome Client -> TaskState -> list Event -> Prop :=
  | acq_cached c :
      client st = Some c ->
      acquisition calls param st (Returned c) st []
  | acq_built c st1 evs0 :
      client st = None ->
      truthy (google_application_credentials param) &&
        has_nul (google_application_credentials param) = false ->
      client_call calls = None ->
      acquire_client param st = (Returned c, st1, evs0) ->
      acquisition calls param st (Returned c) st1 evs0
  | acq_nul :
      client st = None ->
      truthy (google_application_credentials param) = true ->
      has_nul (google_application_credentials param) = true ->
      acquisition calls param st (Raised ValueError) st []
  | acq_refused e :
      client st = None ->
      truthy (google_application_credentials param) &&
        has_nul (google_application_credentials param) = false ->
      client_call calls = Some e ->
      acquisition calls param st (Raised e) (after_setitem param st) [].

(** The four ways a run goes: no client, no payload, no answer, or the run
    with the response. *)
Inductive course (calls : Calls) (param : Param) (img : image)
    (st : TaskState) : Outcome unit * TaskState * list Event -> Prop :=
  | no_client e st1 :
      acquisition calls param st (Raised e) st1 [] ->
      course calls param img st (Raised e, st1, [BeginTaskRun])
  | no_payload c st1 evs0 e :
      acquisition calls param st (Returned c) st1 evs0 ->
      imencode_call calls = Some e ->
      course calls param img st (Raised e, st1, BeginTaskRun :: evs0)
  | no_answer c st1 evs0 e :
      acquisition calls param st (Returned c) st1 evs0 ->
      imencode_call calls = None ->
      service_call calls = Raised e ->
      course calls param img st
        (Raised e, st1, BeginTaskRun :: evs0 ++ [request c img])
  | with_answer c st1 evs0 resp :
      acquisition calls param st (Returned c) st1 evs0 ->
      acquire_client param st = (Returned c, st1, evs0) ->
      imencode_call calls = None ->
      service_call calls = Returned resp ->
      course calls param img st (run param img resp st).

End Courses.

(** * Properties *)

(** ** Floats *)

Lemma SFcompare_antisym (x y : float) (c : comparison) :
  SFcompare x y = Some c -> SFcompare y x = Some (CompOpp c).
Proof.
  destruct x as [sx | sx | | sx mx ex], y as [sy | sy | | sy my ey]; simpl;
    try discriminate;
    try (intros [= <-]; repeat match goal with b : bool |- _ => destruct b end;
         reflexivity).
  intros [= <-]. f_equal.
  destruct sx, sy; try reflexivity.
  - rewrite (Z.compare_antisym ey ex).
    destruct (ey ?= ex) eqn:E; simpl; try reflexivity.
    rewrite (ZC4 my mx). destruct (Pos.compare_cont Eq mx my); reflexivity.
  - rewrite (Z.compare_antisym ey ex).
    destruct (ey ?= ex) eqn:E; simpl; try reflexivity.
    rewrite (ZC4 my mx). destruct (Pos.compare_cont Eq mx my); reflexivity.
Qed.

Lemma SFleb_not_SFltb (t s : float) : SFleb t s = true -> SFltb s t = false.
Proof.
  unfold SFleb, SFltb.
  destruct (SFcompare t s) as [c|] eqn:E; [|discriminate].
  rewrite (SFcompare_antisym _ _ _ E). destruct c; simpl; congruence.
Qed.



Lemma digits2_pos_size (p : positive) : digits2_pos p = Pos.size p.
Proof. induction p; simpl; congruence. Qed.

Lemma digits2_pos_bound (p : positive) :
  Zpos p < 2 ^ 53 -> Zpos (digits2_pos p) <= 53.
Proof.
  intros Hp. rewrite digits2_pos_size.
  pose proof (Pos.size_le p) as Hle.
  apply Pos2Z.pos_le_pos in Hle. rewrite Pos2Z.inj_pow in Hle.
  destruct (Z_le_gt_dec (Zpos (Pos.size p)) 53) as [|Hgt]; [assumption|exfalso].
  assert (2 ^ 54 <= 2 ^ Zpos (Pos.size p)) by (apply Z.pow_le_mono_r; lia).
  change (Zpos p~0) with (2 * Zpos p) in Hle. lia.
Qed.

Lemma iter_xO_digits (p k : positive) :
  digits2_pos (Pos.iter xO p k) = (digits2_pos p + k)%positive.
Proof.
  induction k using Pos.peano_ind.
  - simpl. lia.
  - rewrite Pos.iter_succ. simpl. rewrite IHk. lia.
Qed.

Lemma iter_xO_value (p k : positive) :
  Zpos (Pos.iter xO p k) = Zpos p * 2 ^ Zpos k.
Proof.
  induction k using Pos.peano_ind.
  - simpl. lia.
  - rewrite Pos.iter_succ, Pos2Z.inj_succ, Z.pow_succ_r by lia.
    change (Zpos (Pos.iter xO p k)~0) with (2 * Zpos (Pos.iter xO p k)).
    rewrite IHk. ring.
Qed.

Lemma binary_round_aux_canonical (s : bool) (m : positive) (e : Z) :
  Zpos (digits2_pos m) = 53 -> -1074 <= e <= 971 ->
  binary_round_aux prec emax s (Zpos m) e loc_Exact = S754_finite s m e.
Proof.
  intros Hd He.
  assert (Hshift : fexp prec emax (Zdigits2 (Zpos m) + e) - e = 0).
  { unfold fexp, emin, prec, emax. simpl Zdigits2. rewrite Hd. lia. }
  unfold binary_round_aux, shr_fexp. rewrite Hshift. simpl.
  rewrite Hd. replace (fexp prec emax (53 + e) - e) with 0
    by (unfold fexp, emin, prec, emax; lia).
  simpl. replace (e <=? emax - prec) with true; [reflexivity|].
  symmetry. apply Z.leb_le. unfold emax, prec. lia.
Qed.

Lemma binary_round_small (s : bool) (p : positive) :
  Zpos p < 2 ^ 53 ->
  exists m e, binary_round prec emax s p 0 = S754_finite s m e /\
              -52 <= e <= 0 /\ Zpos m = Zpos p * 2 ^ (- e).
Proof.
  intros Hp. pose proof (digits2_pos_bound p Hp) as Hd.
  unfold binary_round, shl_align.
  replace (fexp prec emax (Zpos (digits2_pos p) + 0))
    with (Zpos (digits2_pos p) - 53)
    by (unfold fexp, emin, prec, emax; lia).
  destruct (Zpos (digits2_pos p) - 53 - 0) as [|k|k] eqn:E; try lia.
  - exists p, 0. rewrite binary_round_aux_canonical by lia.
    repeat split; try lia.
  - exists (Pos.iter xO p k), (Zpos (digits2_pos p) - 53).
    rewrite binary_round_aux_canonical.
    + repeat split; try lia. rewrite iter_xO_value. f_equal. f_equal. lia.
    + rewrite iter_xO_digits. lia.
    + lia.
Qed.

Lemma SF2Z_finite (s : bool) (m p : positive) (e : Z) :
  -52 <= e <= 0 -> Zpos m = Zpos p * 2 ^ (- e) ->
  SF2Z (S754_finite s m e) = Some (cond_Zopp s (Zpos p)).
Proof.
  intros He Hm. destruct e as [|k|k]; try lia.
  - simpl in *. do 2 f_equal. lia.
  - unfold SF2Z. change (- Zneg k) with (Zpos k) in Hm. rewrite Hm.
    assert (0 < 2 ^ Zpos k) by (apply Z.pow_pos_nonneg; lia).
    rewrite Z.mod_mul, Z.div_mul by lia. reflexivity.
Qed.

(** [float(z)] is exact, and does not overflow, below 2^53 in magnitude. *)
Lemma float_of_int_exact (z : Z) :
  - 2 ^ 53 < z < 2 ^ 53 ->
  is_finite (float_of_int z) = true /\ SF2Z (float_of_int z) = Some z.
Proof.
  intros Hz. unfold float_of_int, binary_normalize.
  destruct z as [|p|p].
  - split; reflexivity.
  - destruct (binary_round_small false p) as (m & e & -> & He & Hm); [lia|].
    split; [reflexivity|]. apply (SF2Z_finite false m p e He Hm).
  - destruct (binary_round_small true p) as (m & e & -> & He & Hm); [lia|].
    split; [reflexivity|]. apply (SF2Z_finite true m p e He Hm).
Qed.

(** ** The loop over the annotations *)

Section Loop.
Context `{RT : Runtime}.

Lemma for_each_emit {A} (f : A -> Event) (l : list A) (st : TaskState) :
  for_each l (fun x => emit (f x)) st = (Returned tt, st, map f l).
Proof.
  induction l as [|x l IH]; [reflexivity|].
  simpl. unfold bind. simpl. rewrite IH. reflexivity.
Qed.

Lemma int32_small (z : Z) : int32 z = true -> - 2 ^ 53 < z < 2 ^ 53.
Proof. unfold int32. intros H. apply andb_prop in H as [H1 H2]. lia. Qed.

Lemma py_float_int32 (z : Z) (st : TaskState) :
  int32 z = true -> py_float z st = (Returned (float_of_int z), st, []).
Proof.
  intros Hz. destruct (float_of_int_exact z (int32_small z Hz)) as [Hfin _].
  unfold py_float. destruct (float_of_int z); try discriminate; reflexivity.
Qed.

Lemma process_landmark_skipped param i a st :
  retained param a = false ->
  process_landmark param (i, a) st = (Returned tt, st, []).
Proof.
  unfold retained, process_landmark. intros H.
  apply negb_false_iff in H. rewrite H. reflexivity.
Qed.

Lemma process_landmark_retained param i a st :
  retained param a = true -> wf_polygon a = true ->
  process_landmark param (i, a) st =
    (Returned tt, st, landmark_events param (i, a)).
Proof.
  intros Hr Hwf. unfold landmark_events. simpl. rewrite Hr.
  unfold retained in Hr. apply negb_true_iff in Hr.
  unfold process_landmark. rewrite Hr.
  unfold wf_polygon in Hwf. apply andb_prop in Hwf as [Hlen Hall].
  apply Nat.eqb_eq in Hlen.
  unfold box_of, vertex_at. simpl.
  destruct (bounding_poly a) as [|v0 [|v1 [|v2 [|v3 [|v4 l]]]]];
    try discriminate Hlen.
  simpl in Hall. unfold wf_vertex in Hall.
  repeat match type of Hall with
         | _ && _ = true => apply andb_prop in Hall as [? Hall]
         end.
  repeat match goal with
         | H : _ && _ = true |- _ => apply andb_prop in H as [? ?]
         end.
  unfold bind, py_index. simpl.
  rewrite !py_float_int32 by assumption. simpl.
  rewrite for_each_emit. reflexivity.
Qed.

Lemma loop_events param l st :
  polygons_ok param l ->
  for_each l (process_landmark param) st =
    (Returned tt, st, flat_map (landmark_events param) l).
Proof.
  induction 1 as [|[i a] l Hx _ IH]; [reflexivity|].
  simpl in Hx.
  change (for_each ((i, a) :: l) (process_landmark param) st)
    with (bind (process_landmark param (i, a))
               (fun _ => for_each l (process_landmark param)) st).
  unfold bind.
  destruct (retained param a) eqn:Hr.
  - rewrite process_landmark_retained by auto. rewrite IH. reflexivity.
  - rewrite process_landmark_skipped by auto. rewrite IH.
    cbn [flat_map].
    replace (landmark_events param (i, a)) with (@nil Event);
      [reflexivity|].
    unfold landmark_events. cbn [snd]. rewrite Hr. reflexivity.
Qed.

Lemma enumerate_from_snd {A} (n : nat) (l : list A) :
  map snd (enumerate_from n l) = l.
Proof. revert n. induction l; intros; simpl; f_equal; auto. Qed.

Lemma enumerate_from_lookup {A} (n k : nat) (l : list A) :
  enumerate_from n l !! k = (fun a => ((n + k)%nat, a)) <$> l !! k.
Proof.
  revert n k. induction l as [|x l IH]; intros n [|k]; simpl; try reflexivity.
  - f_equal. f_equal. lia.
  - rewrite IH. destruct (l !! k); simpl; [|reflexivity]. do 2 f_equal. lia.
Qed.

Lemma polygons_ok_enumerate param n (l : list EntityAnnotation) :
  Forall (fun a => wf_polygon a = true) l ->
  polygons_ok param (enumerate_from n l).
Proof.
  intros H. revert n. induction H; intros n; constructor; simpl; auto.
  apply IHForall.
Qed.

Lemma add_object_calls_loop param l :
  add_object_calls (flat_map (landmark_events param) l) =
    map box_of (filter (fun il => retained param il.2 = true) l).
Proof.
  unfold add_object_calls.
  induction l as [|il l IH]; [reflexivity|].
  simpl. rewrite omap_app, IH, filter_cons.
  unfold landmark_events. destruct (retained param il.2) eqn:Hr.
  - rewrite decide_True by reflexivity. simpl. f_equal.
    induction (locations il.2); simpl; auto.
  - rewrite decide_False by discriminate. reflexivity.
Qed.

Lemma set_names_calls_loop param l :
  set_names_calls (flat_map (landmark_events param) l) =
    map (fun il => [description il.2])
        (filter (fun il => retained param il.2 = true) l).
Proof.
  unfold set_names_calls.
  induction l as [|il l IH]; [reflexivity|].
  simpl. rewrite omap_app, IH, filter_cons.
  unfold landmark_events. destruct (retained param il.2) eqn:Hr.
  - rewrite decide_True by reflexivity. simpl. f_equal.
    induction (locations il.2); simpl; auto.
  - rewrite decide_False by discriminate. reflexivity.
Qed.

End Loop.

(** ** One run *)

Section Run.
Context `{RT : Runtime}.

Lemma acquire_client_cached param st c :
  client st = Some c -> acquire_client param st = (Returned c, st, []).
Proof. intros H. unfold acquire_client, bind, get_state. simpl. rewrite H. reflexivity. Qed.

Lemma acquire_client_fresh param st :
  client st = None ->
  let c := {| client_serial := clients_built st;
              client_credentials := environ_after param st !! credentials_var |} in
  acquire_client param st =
    (Returned c,
     {| client := Some c; environ := environ_after param st;
        output_dict_data := output_dict_data st;
        clients_built := S (clients_built st) |},
     [NewClient c]).
Proof.
  intros H. unfold environ_after, acquire_client, bind, get_state. simpl.
  rewrite H. destruct (truthy (google_application_credentials param)); reflexivity.
Qed.

Lemma acquire_client_returns param st :
  exists c st1 evs,
    acquire_client param st = (Returned c, st1, evs) /\
    client st1 = Some c /\
    environ st1 = environ_after param st /\
    output_dict_data st1 = output_dict_data st /\
    add_object_calls evs = [] /\ set_names_calls evs = [] /\ printed evs = [].
Proof.
  destruct (client st) as [c|] eqn:Hc.
  - exists c, st, []. rewrite (acquire_client_cached _ _ _ Hc).
    unfold environ_after. rewrite Hc. repeat split; auto.
  - eexists _, _, _. rewrite (acquire_client_fresh _ _ Hc).
    repeat split; reflexivity.
Qed.

Lemma truthy_false (s : string) : truthy s = false <-> s = "".
Proof. destruct s; simpl; split; congruence. Qed.

Lemma truthy_true (s : string) : truthy s = true <-> s <> "".
Proof. destruct s; simpl; split; congruence. Qed.

(** A run that the service answers with an error message. *)
Lemma run_service_error param img resp st c st1 evs0 :
  acquire_client param st = (Returned c, st1, evs0) ->
  error_message resp <> "" ->
  run param img resp st =
    (Raised (Exception (error_message resp +:+ documentation_pointer)), st1,
     BeginTaskRun :: evs0 ++ [request c img]).
Proof.
  intros Ha He. apply truthy_true in He.
  unfold run, bind, emit, when. rewrite Ha, He. simpl.
  rewrite ?app_nil_r. reflexivity.
Qed.

(** A run that the service answers without an error message. *)
Lemma run_no_service_error param img resp st c st1 evs0 :
  acquire_client param st = (Returned c, st1, evs0) ->
  error_message resp = "" ->
  run param img resp st =
    let landmarks := landmark_annotations resp in
    match for_each (enumerate landmarks) (process_landmark param) st1 with
    | (Returned _, st2, evs) =>
        (Returned tt,
         set_output_dict_data {[ "Landmarks" := landmarks_str landmarks ]} st2,
         BeginTaskRun :: evs0 ++ [request c img] ++ notice landmarks ++ evs ++
         [EmitStepProgress; EndTaskRun])
    | (Raised e, st2, evs) =>
        (Raised e, st2,
         BeginTaskRun :: evs0 ++ [request c img] ++ notice landmarks ++ evs)
    end.
Proof.
  intros Ha He. apply truthy_false in He.
  unfold run, bind, emit, when, notice. rewrite Ha, He. simpl.
  destruct (length (landmark_annotations resp) =? 0)%nat; simpl;
    destruct (for_each _ _ st1) as [[[[]|e] st2] evs]; simpl;
    rewrite ?app_nil_r; reflexivity.
Qed.

Lemma run_completes param img resp st c st1 evs0 :
  acquire_client param st = (Returned c, st1, evs0) ->
  error_message resp = "" ->
  polygons_ok param (enumerate (landmark_annotations resp)) ->
  run param img resp st =
    (Returned tt,
     set_output_dict_data
       {[ "Landmarks" := landmarks_str (landmark_annotations resp) ]} st1,
     BeginTaskRun :: evs0 ++ [request c img] ++
     notice (landmark_annotations resp) ++
     flat_map (landmark_events param) (enumerate (landmark_annotations resp)) ++
     [EmitStepProgress; EndTaskRun]).
Proof.
  intros Ha He Hok. rewrite (run_no_service_error _ _ _ _ _ _ _ Ha He).
  simpl. rewrite (loop_events _ _ _ Hok). reflexivity.
Qed.

End Run.

(** ** Boxes and positions *)

Section Boxes.
Context (P : nat * EntityAnnotation -> Prop) `{!forall il, Decision (P il)}.

Lemma enumerate_ids_ge (n : nat) (l : list EntityAnnotation) :
  Forall (fun i => (n <= i)%nat) (map fst (filter P (enumerate_from n l))).
Proof.
  revert n. induction l as [|a l IH]; intros n; simpl; [constructor|].
  rewrite filter_cons. specialize (IH (S n)).
  assert (Forall (fun i => (n <= i)%nat) (map fst (filter P (enumerate_from (S n) l)))).
  { eapply Forall_impl; [exact IH|]. simpl. intros. lia. }
  destruct (decide (P (n, a))); simpl; auto.
Qed.

Lemma enumerate_ids_sorted (n : nat) (l : list EntityAnnotation) :
  StronglySorted lt (map fst (filter P (enumerate_from n l))).
Proof.
  revert n. induction l as [|a l IH]; intros n; simpl; [constructor|].
  rewrite filter_cons. destruct (decide (P (n, a))); simpl; auto.
  constructor; auto.
  eapply Forall_impl; [apply (enumerate_ids_ge (S n) l)|]. simpl. intros. lia.
Qed.

Lemma boxes_below (n i : nat) (l : list EntityAnnotation) :
  (i < n)%nat ->
  filter (fun b => box_id b = i) (map box_of (filter P (enumerate_from n l))) = [].
Proof.
  intros Hlt. pose proof (enumerate_ids_ge n l) as Hge.
  induction (filter P (enumerate_from n l)) as [|[j a] l' IH]; [reflexivity|].
  simpl in *. inversion Hge; subst.
  rewrite filter_cons, decide_False by (simpl; lia). auto.
Qed.

Lemma boxes_at (n k : nat) (l : list EntityAnnotation) (a : EntityAnnotation) :
  l !! k = Some a ->
  filter (fun b => box_id b = (n + k)%nat)
         (map box_of (filter P (enumerate_from n l))) =
    if decide (P ((n + k)%nat, a)) then [box_of ((n + k)%nat, a)] else [].
Proof.
  revert n k. induction l as [|x l IH]; intros n k Hk; [discriminate|].
  simpl. rewrite filter_cons. destruct k as [|k]; simpl in Hk.
  - injection Hk as ->. rewrite Nat.add_0_r.
    destruct (decide (P (n, a))); simpl.
    + rewrite filter_cons, decide_True by reflexivity.
      rewrite boxes_below by lia. reflexivity.
    + apply boxes_below. lia.
  - specialize (IH (S n) k Hk).
    replace (S n + k)%nat with (n + S k)%nat in IH by lia.
    destruct (decide (P (n, x))); simpl.
    + rewrite filter_cons, decide_False by (simpl; lia). exact IH.
    + exact IH.
Qed.

Lemma filter_enumerate_lookup (n j : nat) (l : list EntityAnnotation) il :
  filter P (enumerate_from n l) !! j = Some il ->
  exists k, il.1 = (n + k)%nat /\ l !! k = Some il.2 /\ P il.
Proof.
  intros Hj. apply list_elem_of_lookup_2 in Hj.
  apply list_elem_of_filter in Hj as [HP Hin].
  apply list_elem_of_lookup_1 in Hin as [k Hk].
  rewrite enumerate_from_lookup in Hk.
  destruct (l !! k) as [a|] eqn:E; simpl in Hk; [|discriminate].
  injection Hk as <-. exists k. auto.
Qed.

End Boxes.

(** ** What a completed run emits *)

Section Emitted.
Context `{RT : Runtime}.

Lemma add_object_calls_app (e1 e2 : list Event) :
  add_object_calls (e1 ++ e2) = add_object_calls e1 ++ add_object_calls e2.
Proof. apply omap_app. Qed.

Lemma set_names_calls_app (e1 e2 : list Event) :
  set_names_calls (e1 ++ e2) = set_names_calls e1 ++ set_names_calls e2.
Proof. apply omap_app. Qed.

Lemma printed_app (e1 e2 : list Event) :
  printed (e1 ++ e2) = printed e1 ++ printed e2.
Proof. apply omap_app. Qed.

Lemma notice_no_calls landmarks :
  add_object_calls (notice landmarks) = [] /\
  set_names_calls (notice landmarks) = [].
Proof. unfold notice. destruct (_ =? _)%nat; split; reflexivity. Qed.

Lemma run_ok param img resp st :
  error_message resp = "" ->
  polygons_ok param (enumerate (landmark_annotations resp)) ->
  let r := run param img resp st in
  outcome r = Returned tt /\
  output_dict_data (final_state r) =
    {[ "Landmarks" := landmarks_str (landmark_annotations resp) ]} /\
  environ (final_state r) = environ_after param st /\
  add_object_calls (events r) =
    map box_of (retained_landmarks param (landmark_annotations resp)) /\
  set_names_calls (events r) =
    map (fun il => [description il.2])
        (retained_landmarks param (landmark_annotations resp)).
Proof.
  intros He Hok.
  destruct (acquire_client_returns param st)
    as (c & st1 & evs0 & Ha & _ & Henv & _ & Hadd & Hset & _).
  cbv zeta. rewrite (run_completes _ _ _ _ _ _ _ Ha He Hok).
  unfold outcome, final_state, events. cbn [fst snd].
  destruct (notice_no_calls (landmark_annotations resp)) as [Hn1 Hn2].
  repeat split; auto.
  - change (BeginTaskRun :: ?l) with ([BeginTaskRun] ++ l).
    rewrite !add_object_calls_app, Hadd, Hn1, add_object_calls_loop.
    simpl. rewrite app_nil_r. reflexivity.
  - change (BeginTaskRun :: ?l) with ([BeginTaskRun] ++ l).
    rewrite !set_names_calls_app, Hset, Hn2, set_names_calls_loop.
    simpl. rewrite app_nil_r. reflexivity.
Qed.

End Emitted.

(** ** Filtering by the threshold *)

Section Detections.
Context `{RT : Runtime}.

(** C1. When the service reports no error and every polygon is complete, [run]
    returns and hands the host exactly one box for each annotation whose score
    is at least the threshold (equality included), none for an annotation whose
    score is below it, and the boxes come in the order of the service's list:
    their identifiers are the retained positions, increasing. *)
Theorem run_filters_by_threshold param img resp st :
  error_message resp = "" ->
  Forall (fun a => wf_polygon a = true) (landmark_annotations resp) ->
  let r := run param img resp st in
  let boxes := add_object_calls (events r) in
  outcome r = Returned tt /\
  (forall i a, landmark_annotations resp !! i = Some a ->
     SFleb (conf_thres param) (score a) = true ->
     exists b, filter (fun b => box_id b = i) boxes = [b] /\
               box_confidence b = score a) /\
  (forall i a, landmark_annotations resp !! i = Some a ->
     SFltb (score a) (conf_thres param) = true ->
     filter (fun b => box_id b = i) boxes = []) /\
  map box_id boxes =
    map fst (retained_landmarks param (landmark_annotations resp)) /\
  StronglySorted lt (map box_id boxes).
Proof.
  intros He Hwf.
  destruct (run_ok param img resp st He (polygons_ok_enumerate _ _ _ Hwf))
    as (Hout & _ & _ & Hboxes & _).
  simpl. rewrite Hboxes. unfold retained_landmarks, enumerate.
  split; [exact Hout|]. split; [|split; [|split]].
  - intros i a Hi Hle.
    pose proof (boxes_at (fun il => retained param il.2 = true) 0 i _ a Hi) as Hb.
    simpl in Hb. rewrite Hb.
    unfold retained. rewrite (SFleb_not_SFltb _ _ Hle). simpl.
    eexists. split; reflexivity.
  - intros i a Hi Hlt.
    pose proof (boxes_at (fun il => retained param il.2 = true) 0 i _ a Hi) as Hb.
    simpl in Hb. rewrite Hb.
    unfold retained. rewrite Hlt. reflexivity.
  - rewrite <- list_fmap_compose. reflexivity.
  - rewrite <- list_fmap_compose.
    apply (enumerate_ids_sorted (fun il => retained param il.2 = true)).
Qed.

End Detections.

(** ** Computations that leave the task state and the SDK alone *)

Section Local.
Context `{RT : Runtime}.

Lemma local_ret {A} (a : A) : local (ret a).
Proof. intros st. repeat split. Qed.

Lemma local_raise {A} (e : PyException) : local (@raise A e).
Proof. intros st. repeat split. Qed.

Lemma local_bind {A B} (m : Py A) (k : A -> Py B) :
  local m -> (forall a, local (k a)) -> local (bind m k).
Proof.
  intros Hm Hk st. unfold bind. specialize (Hm st).
  destruct (m st) as [[[a|e] st1] evs1]; unfold final_state, events in *;
    simpl in *; destruct Hm as (-> & Hn & Hu); [|auto].
  specialize (Hk a st). destruct (k a st) as [[o st2] evs2].
  unfold final_state, events in *; simpl in *. destruct Hk as (-> & Hn2 & Hu2).
  unfold new_clients, clients_used in *. rewrite !omap_app.
  rewrite Hn, Hu, Hn2, Hu2. auto.
Qed.

Lemma local_for_each {A} (l : list A) (body : A -> Py unit) :
  (forall x, local (body x)) -> local (for_each l body).
Proof.
  intros Hb. induction l; simpl; [apply local_ret|].
  apply local_bind; auto.
Qed.

Lemma local_py_index {A} (l : list A) (i : nat) : local (py_index l i).
Proof. unfold py_index. destruct (l !! i); [apply local_ret|apply local_raise]. Qed.

Lemma local_py_float (z : Z) : local (py_float z).
Proof.
  unfold py_float.
  destruct (float_of_int z); try apply local_ret; apply local_raise.
Qed.

Lemma local_process_landmark param il : local (process_landmark param il).
Proof.
  destruct il as [i a]. unfold process_landmark.
  destruct (SFltb _ _); [apply local_ret|].
  repeat (apply local_bind;
          [first [apply local_py_index | apply local_py_float
                 | intros st; repeat split ] | intros ?]).
  apply local_for_each. intros x st. repeat split.
Qed.

Lemma local_loop param l : local (for_each l (process_landmark param)).
Proof. apply local_for_each, local_process_landmark. Qed.

(** Whatever the outcome, a run leaves the state in which the client was
    acquired, up to the dictionary output, and calls the SDK once. *)
Lemma run_frame param img resp st c st1 evs0 :
  acquire_client param st = (Returned c, st1, evs0) ->
  let r := run param img resp st in
  client (final_state r) = client st1 /\
  environ (final_state r) = environ st1 /\
  clients_built (final_state r) = clients_built st1 /\
  new_clients (events r) = new_clients evs0 /\
  clients_used (events r) = clients_used evs0 ++ [c].
Proof.
  intros Ha. cbv zeta.
  destruct (decide (error_message resp = "")) as [He|He].
  - rewrite (run_no_service_error _ _ _ _ _ _ _ Ha He). cbv zeta.
    destruct (local_loop param (enumerate (landmark_annotations resp)) st1)
      as (Hst & Hn & Hu).
    destruct (for_each _ _ st1) as [[[[]|e] st2] evs];
      unfold final_state, events in *; cbn [fst snd] in *; subst st2;
      (repeat split; try reflexivity);
      change (BeginTaskRun :: ?l) with ([BeginTaskRun] ++ l);
      unfold new_clients, clients_used, notice in *; rewrite !omap_app;
      rewrite ?Hn, ?Hu; destruct (_ =? _)%nat; simpl; rewrite ?app_nil_r;
      reflexivity.
  - rewrite (run_service_error _ _ _ _ _ _ _ Ha He).
    unfold final_state, events, new_clients, clients_used. cbn [fst snd].
    change (BeginTaskRun :: ?l) with ([BeginTaskRun] ++ l).
    rewrite !omap_app. simpl. rewrite ?app_nil_r. auto.
Qed.

End Local.

(** ** Box geometry *)

Section Geometry.
Context `{RT : Runtime}.

Lemma wf_polygon_first (a : EntityAnnotation) v0 l :
  wf_polygon a = true -> bounding_poly a = v0 :: l ->
  int32 (vx v0) = true /\ int32 (vy v0) = true.
Proof.
  unfold wf_polygon. intros H E. rewrite E in H.
  apply andb_prop in H as [_ H]. simpl in H.
  apply andb_prop in H as [H _]. unfold wf_vertex in H.
  apply andb_prop in H. exact H.
Qed.

(** C2. For a retained annotation whose polygon is
    [(x0,y0),(x1,y1),(x2,y2),(x3,y3)], the box handed to the host has
    x = float(x0), y = float(y0), both exact, width x1 - x0 and height
    y2 - y0; neither x3, y3 nor the sign of the differences plays a part. *)
Theorem box_geometry param img resp st i a x0 y0 x1 y1 x2 y2 x3 y3 :
  error_message resp = "" ->
  Forall (fun a => wf_polygon a = true) (landmark_annotations resp) ->
  landmark_annotations resp !! i = Some a ->
  retained param a = true ->
  bounding_poly a = [ {| vx := x0; vy := y0 |}; {| vx := x1; vy := y1 |};
                      {| vx := x2; vy := y2 |}; {| vx := x3; vy := y3 |} ] ->
  filter (fun b => box_id b = i)
         (add_object_calls (events (run param img resp st))) =
    [ {| box_id := i; box_class := 0; box_confidence := score a;
         box_x := float_of_int x0; box_y := float_of_int y0;
         box_w := x1 - x0; box_h := y2 - y0 |} ] /\
  SF2Z (float_of_int x0) = Some x0 /\ SF2Z (float_of_int y0) = Some y0.
Proof.
  intros He Hwf Hi Hr Hpoly.
  destruct (run_ok param img resp st He (polygons_ok_enumerate _ _ _ Hwf))
    as (_ & _ & _ & Hboxes & _).
  cbv zeta in Hboxes. rewrite Hboxes. unfold retained_landmarks, enumerate.
  pose proof (boxes_at (fun il => retained param il.2 = true) 0 i _ a Hi) as Hb.
  simpl in Hb. rewrite Hb, Hr. simpl.
  assert (Ha : wf_polygon a = true).
  { rewrite Forall_forall in Hwf. apply Hwf.
    eapply list_elem_of_lookup_2, Hi. }
  destruct (wf_polygon_first a _ _ Ha Hpoly) as [Hx Hy]. simpl in Hx, Hy.
  split; [|split].
  - unfold box_of, vertex_at. simpl. rewrite Hpoly. reflexivity.
  - apply float_of_int_exact, int32_small, Hx.
  - apply float_of_int_exact, int32_small, Hy.
Qed.

End Geometry.

(** ** The auxiliary output *)

Section Auxiliary.
Context `{RT : Runtime}.

(** C6. A run that completes writes to the dictionary output the one-key
    dictionary whose key is "Landmarks" and whose value renders the whole list
    of annotations the service returned; the threshold and the rest of the
    parameters do not enter. *)
Theorem auxiliary_output param img resp st :
  error_message resp = "" ->
  Forall (fun a => wf_polygon a = true) (landmark_annotations resp) ->
  let r := run param img resp st in
  outcome r = Returned tt /\
  output_dict_data (final_state r) =
    {[ "Landmarks" :=
         py_list_repr (map annotation_repr (landmark_annotations resp)) ]} /\
  dom (output_dict_data (final_state r)) = ({[ "Landmarks" ]} : gset string) /\
  forall param',
    output_dict_data (final_state (run param' img resp st)) =
    output_dict_data (final_state r).
Proof.
  intros He Hwf. cbv zeta.
  destruct (run_ok param img resp st He (polygons_ok_enumerate _ _ _ Hwf))
    as (Hret & Hdata & _).
  cbv zeta in Hret, Hdata. rewrite Hdata.
  split; [exact Hret|]. split; [reflexivity|]. split.
  - apply dom_singleton_L.
  - intros param'.
    destruct (run_ok param' img resp st He (polygons_ok_enumerate _ _ _ Hwf))
      as (_ & Hdata' & _).
    exact Hdata'.
Qed.

End Auxiliary.

(** ** Class names *)

Section Labels.
Context `{RT : Runtime}.




End Labels.

(** ** Runs without detections *)

Section NoDetections.
Context `{RT : Runtime}.

Lemma none_retained_polygons_ok param (l : list (nat * EntityAnnotation)) :
  filter (fun il => retained param il.2 = true) l = [] -> polygons_ok param l.
Proof.
  intros Hf. apply Forall_forall. intros il Hin Hr. exfalso.
  assert (Hin' : il ∈ filter (fun il => retained param il.2 = true) l)
    by (apply list_elem_of_filter; auto).
  rewrite Hf in Hin'. inversion Hin'.
Qed.

Lemma none_retained_events param (l : list (nat * EntityAnnotation)) :
  filter (fun il => retained param il.2 = true) l = [] ->
  flat_map (landmark_events param) l = [].
Proof.
  induction l as [|il l IH]; [reflexivity|].
  rewrite filter_cons. destruct (decide (retained param il.2 = true)) as [Hr|Hr];
    [discriminate|].
  intros Hf. simpl. rewrite (IH Hf), app_nil_r.
  unfold landmark_events. destruct (retained param il.2); congruence.
Qed.

(** C8, amended. When the service reports no error and no annotation gets past
    the filter, [run] returns, hands no box to the host, and writes the
    rendering of the whole returned list under "Landmarks".  When the list is
    empty that rendering is "[]" and the notice is printed; when annotations
    were returned and all were filtered out, nothing is printed. *)
Theorem run_without_detections param img resp st :
  error_message resp = "" ->
  retained_landmarks param (landmark_annotations resp) = [] ->
  let r := run param img resp st in
  outcome r = Returned tt /\
  add_object_calls (events r) = [] /\
  output_dict_data (final_state r) =
    {[ "Landmarks" := landmarks_str (landmark_annotations resp) ]} /\
  (landmark_annotations resp = [] ->
     printed (events r) = ["No landmark detected"] /\
     output_dict_data (final_state r) = {[ "Landmarks" := "[]" ]}) /\
  (landmark_annotations resp <> [] -> printed (events r) = []).
Proof.
  intros He Hnone. cbv zeta. unfold retained_landmarks in Hnone.
  pose proof (none_retained_polygons_ok _ _ Hnone) as Hok.
  destruct (acquire_client_returns param st)
    as (c & st1 & evs0 & Ha & _ & _ & _ & Hadd & _ & Hpr).
  rewrite (run_completes _ _ _ _ _ _ _ Ha He Hok).
  rewrite (none_retained_events _ _ Hnone).
  unfold outcome, final_state, events. cbn [fst snd].
  change (BeginTaskRun :: ?l) with ([BeginTaskRun] ++ l).
  rewrite !add_object_calls_app, !printed_app, Hadd, Hpr.
  destruct (notice_no_calls (landmark_annotations resp)) as [Hn _].
  rewrite Hn. unfold notice.
  split; [reflexivity|]. split; [reflexivity|]. split; [reflexivity|]. split.
  - intros ->. split; reflexivity.
  - intros Hne. destruct (landmark_annotations resp); [congruence|reflexivity].
Qed.

End NoDetections.

(** ** Box identifiers *)

Section Identifiers.
Context `{RT : Runtime}.

(** C4, amended. The identifier of every box is the position of its annotation
    in the list the service returned, before filtering, and its class index
    is 0. *)
Theorem box_index_is_service_position param img resp st :
  error_message resp = "" ->
  Forall (fun a => wf_polygon a = true) (landmark_annotations resp) ->
  let boxes := add_object_calls (events (run param img resp st)) in
  forall k b, boxes !! k = Some b ->
    box_class b = 0 /\
    exists a, landmark_annotations resp !! box_id b = Some a /\
              retained param a = true /\
              box_confidence b = score a /\
              retained_landmarks param (landmark_annotations resp) !! k =
                Some (box_id b, a).
Proof.
  intros He Hwf. cbv zeta.
  destruct (run_ok param img resp st He (polygons_ok_enumerate _ _ _ Hwf))
    as (_ & _ & _ & Hboxes & _).
  cbv zeta in Hboxes. rewrite Hboxes. intros k b Hk.
  rewrite list_lookup_fmap in Hk.
  destruct (retained_landmarks param (landmark_annotations resp) !! k)
    as [[i a]|] eqn:E; [|discriminate].
  injection Hk as <-. split; [reflexivity|].
  unfold retained_landmarks, enumerate in E.
  destruct (filter_enumerate_lookup _ _ _ _ _ E) as (k' & Hid & Hl & Hr).
  simpl in *. subst i. exists a. auto.
Qed.

End Identifiers.

(** ** Sessions *)

Section Session.
Context `{RT : Runtime}.

Lemma run_holding_client param img resp st c :
  client st = Some c ->
  let r := run param img resp st in
  client (final_state r) = Some c /\
  environ (final_state r) = environ st /\
  new_clients (events r) = [] /\
  clients_used (events r) = [c].
Proof.
  intros Hc.
  destruct (run_frame param img resp st c st []
              (acquire_client_cached param st c Hc))
    as (H1 & H2 & _ & H3 & H4).
  cbv zeta. rewrite H1, H2, H3, H4. auto.
Qed.

Lemma session_with_client inputs st c :
  client st = Some c ->
  let s := run_session inputs st in
  client s.1 = Some c /\
  environ s.1 = environ st /\
  new_clients s.2 = [] /\
  clients_used s.2 = replicate (length inputs) c.
Proof.
  revert st. induction inputs as [|i rest IH]; intros st Hc; [simpl; auto|].
  cbv zeta. cbn [run_session].
  destruct (run_holding_client (in_param i) (in_image i) (in_response i) st c Hc)
    as (H1 & H2 & H3 & H4).
  destruct (run _ _ _ st) as [[o st1] evs1].
  unfold final_state, events in *. cbn [fst snd] in *.
  destruct (IH st1 H1) as (K1 & K2 & K3 & K4).
  destruct (run_session rest st1) as [st2 evs2]. cbn [fst snd] in *.
  unfold new_clients, clients_used in *. rewrite !omap_app.
  rewrite H3, H4, K3, K4, K1, K2, H2. auto.
Qed.

End Session.

(** ** Parameter exchange *)

Section Parameters.
Context `{RT : Runtime}.

(** C9. [get_values] maps exactly the keys "conf_thres" and
    "google_application_credentials", both to strings, and [set_values] on that
    dictionary puts back the parameters it came from, whenever [float] reads
    back the threshold from its [str] (as it does for every finite float). *)
Theorem set_values_get_values (p self : Param) :
  float_parse (float_str (conf_thres p)) = Some (conf_thres p) ->
  set_values (get_values p) self = (Returned tt, p) /\
  get_values p !! "conf_thres" = Some (float_str (conf_thres p)) /\
  get_values p !! "google_application_credentials" =
    Some (google_application_credentials p) /\
  dom (get_values p) =
    ({[ "conf_thres"; "google_application_credentials" ]} : gset string).
Proof.
  intros Hrt.
  assert (H1 : get_values p !! "conf_thres" = Some (float_str (conf_thres p))).
  { unfold get_values. rewrite lookup_insert_ne by discriminate.
    apply lookup_insert_eq. }
  assert (H2 : get_values p !! "google_application_credentials" =
               Some (google_application_credentials p)).
  { unfold get_values. apply lookup_insert_eq. }
  split; [|split; [exact H1|split; [exact H2|]]].
  - unfold set_values. rewrite H1, Hrt, H2. destruct p; reflexivity.
  - unfold get_values. rewrite !dom_insert_L, dom_empty_L. set_solver.
Qed.

End Parameters.

(** ** The properties on the sample data *)

Ltac all_wf := repeat (constructor; [vm_compute; reflexivity|]); constructor.

Lemma run_filters_by_threshold_sample :
  let r := run (RT := sample_runtime) default_param sample_image
               mixed_response sample_state in
  error_message mixed_response = "" /\
  Forall (fun a => wf_polygon a = true) (landmark_annotations mixed_response) /\
  outcome r = Returned tt /\
  map box_id (add_object_calls (events r)) = [1; 2]%nat.
Proof.
  assert (He : error_message mixed_response = "") by reflexivity.
  assert (Hwf : Forall (fun a => wf_polygon a = true)
                       (landmark_annotations mixed_response)) by all_wf.
  destruct (run_filters_by_threshold (RT := sample_runtime) default_param
              sample_image mixed_response sample_state He Hwf)
    as (Hret & _ & _ & Hids & _).
  cbv zeta. split; [exact He|]. split; [exact Hwf|]. split; [exact Hret|].
  rewrite Hids. vm_compute. reflexivity.
Defined.

Lemma box_geometry_sample :
  retained default_param pantheon = true /\
  filter (fun b => box_id b = 2%nat)
         (add_object_calls
            (events (run (RT := sample_runtime) default_param sample_image
                         mixed_response sample_state))) =
    [ {| box_id := 2; box_class := 0; box_confidence := f0_2;
         box_x := float_of_int 300; box_y := float_of_int 40;
         box_w := -100; box_h := -30 |} ].
Proof.
  assert (He : error_message mixed_response = "") by reflexivity.
  assert (Hwf : Forall (fun a => wf_polygon a = true)
                       (landmark_annotations mixed_response)) by all_wf.
  assert (Hr : retained default_param pantheon = true) by reflexivity.
  split; [exact Hr|].
  exact (proj1 (box_geometry (RT := sample_runtime) default_param sample_image
                  mixed_response sample_state 2 pantheon
                  300 40 200 40 200 10 300 10 He Hwf eq_refl Hr eq_refl)).
Defined.

Lemma auxiliary_output_sample :
  error_message mixed_response = "" /\
  output_dict_data
    (final_state (run (RT := sample_runtime) default_param sample_image
                      mixed_response sample_state)) =
    {[ "Landmarks" :=
         "[description: Louvre, description: Eiffel Tower, description: Pantheon]" ]}.
Proof.
  assert (He : error_message mixed_response = "") by reflexivity.
  assert (Hwf : Forall (fun a => wf_polygon a = true)
                       (landmark_annotations mixed_response)) by all_wf.
  split; [exact He|].
  exact (proj1 (proj2 (auxiliary_output (RT := sample_runtime) default_param
                         sample_image mixed_response sample_state He Hwf))).
Defined.

Lemma run_without_detections_sample :
  let r := run (RT := sample_runtime) default_param sample_image
               (ok_response [louvre]) sample_state in
  retained_landmarks default_param [louvre] = [] /\
  outcome r = Returned tt /\
  add_object_calls (events r) = [] /\
  printed (events r) = [].
Proof.
  assert (Hnone : retained_landmarks default_param
                    (landmark_annotations (ok_response [louvre])) = [])
    by (vm_compute; reflexivity).
  destruct (run_without_detections (RT := sample_runtime) default_param
              sample_image (ok_response [louvre]) sample_state eq_refl Hnone)
    as (Hret & Hadd & _ & _ & Hpr).
  cbv zeta. split; [exact Hnone|]. split; [exact Hret|]. split; [exact Hadd|].
  apply Hpr. discriminate.
Defined.

Lemma box_index_is_service_position_sample :
  let boxes := add_object_calls
                 (events (run (RT := sample_runtime) default_param sample_image
                              (ok_response [louvre; eiffel]) sample_state)) in
  Forall (fun a => wf_polygon a = true) [louvre; eiffel] /\
  exists b, boxes !! 0%nat = Some b /\ box_id b = 1%nat /\ box_class b = 0 /\
    exists a, [louvre; eiffel] !! box_id b = Some a /\
              retained default_param a = true.
Proof.
  assert (Hwf : Forall (fun a => wf_polygon a = true)
                       (landmark_annotations (ok_response [louvre; eiffel])))
    by all_wf.
  cbv zeta. split; [exact Hwf|].
  eexists. split; [vm_compute; reflexivity|]. split; [reflexivity|].
  destruct (box_index_is_service_position (RT := sample_runtime) default_param
              sample_image (ok_response [louvre; eiffel]) sample_state
              eq_refl Hwf 0%nat _ eq_refl)
    as (Hclass & a & Ha & Hr & _).
  split; [exact Hclass|]. exists a. split; [exact Ha|exact Hr].
Defined.

Lemma set_values_get_values_sample :
  float_parse (Runtime := sample_runtime)
    (float_str (Runtime := sample_runtime) (conf_thres default_param)) =
    Some (conf_thres default_param) /\
  set_values (RT := sample_runtime)
    (get_values (RT := sample_runtime) default_param)
    {| conf_thres := f0_9; google_application_credentials := "stale" |} =
    (Returned tt, default_param).
Proof.
  split; [reflexivity|].
  exact (proj1 (set_values_get_values (RT := sample_runtime) default_param
                  {| conf_thres := f0_9;
                     google_application_credentials := "stale" |} eq_refl)).
Defined.

(** C4, as stated, fails: with one annotation filtered out ahead of a retained
    one, the retained one is first among the boxes and yet carries
    identifier 1. *)
Lemma box_index_not_retained_position :
  let boxes := add_object_calls
                 (events (run (RT := sample_runtime) default_param sample_image
                              (ok_response [louvre; eiffel]) sample_state)) in
  ~ (forall k b, boxes !! k = Some b -> box_id b = k).
Proof.
  cbv zeta. intros H.
  specialize (H 0%nat _ eq_refl). vm_compute in H. discriminate H.
Qed.

(** C8, as stated, fails: when the service returns an annotation and the
    filter drops it, no notice is printed and the auxiliary payload is not the
    rendering of the empty list. *)
Lemma filtered_out_run_is_not_an_empty_run :
  let r := run (RT := sample_runtime) default_param sample_image
               (ok_response [louvre]) sample_state in
  ~ (retained_landmarks default_param [louvre] = [] ->
     outcome r = Returned tt /\
     add_object_calls (events r) = [] /\
     "No landmark detected" ∈ printed (events r) /\
     output_dict_data (final_state r) =
       {[ "Landmarks" := landmarks_str (RT := sample_runtime) [] ]}).
Proof.
  cbv zeta. intros H.
  destruct H as (_ & _ & Hnotice & _); [vm_compute; reflexivity|].
  vm_compute in Hnotice. inversion Hnotice.
Qed.

Lemma filtered_out_payload_renders_the_list :
  output_dict_data
    (final_state (run (RT := sample_runtime) default_param sample_image
                      (ok_response [louvre]) sample_state)) =
    {[ "Landmarks" := "[description: Louvre]" ]}.
Proof. vm_compute. reflexivity. Qed.

(** Outside the well-formed responses: a retained annotation with fewer than
    three vertices stops the loop with [IndexError] at its first missing
    vertex; boxes already handed over stay, the dictionary output is not
    written. *)
Lemma incomplete_polygon_raises :
  let r := run (RT := sample_runtime) default_param sample_image
               (ok_response [eiffel; fragment; pantheon]) sample_state in
  outcome r = Raised IndexError /\
  map box_id (add_object_calls (events r)) = [0%nat] /\
  output_dict_data (final_state r) = ∅.
Proof. vm_compute. repeat split. Qed.

(** * Further properties *)

(** ** [set_values]: outcomes and what is left behind *)

Section SetValues.
Context `{RT : Runtime}.

(** X1. [set_values] returns with parameters [p] exactly when the dictionary
    has both keys, [float] reads the threshold of [p] from the string under
    "conf_thres", and the string under "google_application_credentials" is the
    credentials path of [p]; the previous values of the object play no part. *)
Theorem set_values_returns_iff params self p :
  set_values params self = (Returned tt, p) <->
  exists s, params !! "conf_thres" = Some s /\
            float_parse s = Some (conf_thres p) /\
            params !! "google_application_credentials" =
              Some (google_application_credentials p).
Proof.
  unfold set_values. split.
  - destruct (params !! "conf_thres") as [s|]; [|discriminate].
    destruct (float_parse s) as [f|] eqn:Ef; [|discriminate].
    destruct (params !! "google_application_credentials") as [c|];
      [|discriminate].
    intros [= <-]. exists s. simpl. auto.
  - intros (s & -> & -> & ->). destruct p; reflexivity.
Qed.

(** X2. When [set_values] raises, it is a [KeyError] for a missing
    "conf_thres" or a [ValueError] for a threshold [float] cannot read, both
    leaving the object as it was, or a [KeyError] for a missing
    "google_application_credentials", which comes after the threshold has
    already been replaced. *)
Theorem set_values_raises params self e p :
  set_values params self = (Raised e, p) ->
  (e = KeyError "conf_thres" /\ params !! "conf_thres" = None /\ p = self) \/
  (e = ValueError /\ p = self /\
   exists s, params !! "conf_thres" = Some s /\ float_parse s = None) \/
  (e = KeyError "google_application_credentials" /\
   params !! "google_application_credentials" = None /\
   exists s f, params !! "conf_thres" = Some s /\ float_parse s = Some f /\
     p = {| conf_thres := f;
            google_application_credentials :=
              google_application_credentials self |}).
Proof.
  unfold set_values.
  destruct (params !! "conf_thres") as [s|] eqn:Es.
  - destruct (float_parse s) as [f|] eqn:Ef.
    + destruct (params !! "google_application_credentials") as [c|] eqn:Ec;
        [discriminate|].
      intros [= <- <-]. right. right. eauto 10.
    + intros [= <- <-]. right. left. eauto 10.
  - intros [= <- <-]. left. auto.
Qed.

End SetValues.

(** ** The shape of a run *)

Section Shape.
Context `{RT : Runtime}.

Lemma loop_only_ret {A} (a : A) : loop_only (ret a).
Proof. intros st. split; [reflexivity|constructor]. Qed.

Lemma loop_only_raise {A} (e : PyException) : loop_only (@raise A e).
Proof. intros st. split; [reflexivity|constructor]. Qed.

Lemma loop_only_emit (ev : Event) :
  is_loop_event ev = true -> loop_only (emit ev).
Proof. intros H st. split; [reflexivity|]. repeat constructor. exact H. Qed.

Lemma loop_only_bind {A B} (m : Py A) (k : A -> Py B) :
  loop_only m -> (forall a, loop_only (k a)) -> loop_only (bind m k).
Proof.
  intros Hm Hk st. unfold bind. specialize (Hm st).
  destruct (m st) as [[[a|e] st1] evs1]; unfold final_state, events in *;
    cbn [fst snd] in *; destruct Hm as (-> & Hev); [|auto].
  specialize (Hk a st). destruct (k a st) as [[o st2] evs2].
  unfold final_state, events in *. cbn [fst snd] in *.
  destruct Hk as (-> & Hev2). split; [reflexivity|].
  apply Forall_app. auto.
Qed.

Lemma loop_only_for_each {A} (l : list A) (body : A -> Py unit) :
  (forall x, loop_only (body x)) -> loop_only (for_each l body).
Proof.
  intros Hb. induction l; simpl; [apply loop_only_ret|].
  apply loop_only_bind; auto.
Qed.

Lemma loop_only_py_index {A} (l : list A) (i : nat) : loop_only (py_index l i).
Proof.
  unfold py_index. destruct (l !! i); [apply loop_only_ret|apply loop_only_raise].
Qed.

Lemma loop_only_py_float (z : Z) : loop_only (py_float z).
Proof.
  unfold py_float.
  destruct (float_of_int z); try apply loop_only_ret; apply loop_only_raise.
Qed.

Lemma loop_only_process_landmark param il :
  loop_only (process_landmark param il).
Proof.
  destruct il as [i a]. unfold process_landmark.
  destruct (SFltb _ _); [apply loop_only_ret|].
  repeat (apply loop_only_bind;
          [first [apply loop_only_py_index | apply loop_only_py_float
                 | apply loop_only_emit; reflexivity ] | intros ?]).
  apply loop_only_for_each. intros x. apply loop_only_emit. reflexivity.
Qed.

Lemma loop_only_notice landmarks :
  Forall (fun ev => is_loop_event ev = true) (notice landmarks).
Proof. unfold notice. destruct (_ =? _)%nat; repeat constructor. Qed.

(** The events of a run, whatever its outcome: the opening call, the client
    when it is built, the request, then events of the loop, then the two
    closing calls when the run returns. *)
Lemma run_shape param img resp st :
  let r := run param img resp st in
  exists c st1 evs0 body,
    acquire_client param st = (Returned c, st1, evs0) /\
    (evs0 = [] \/ evs0 = [NewClient c]) /\
    client (final_state r) = Some c /\
    Forall (fun ev => is_loop_event ev = true) body /\
    events r =
      [BeginTaskRun] ++ evs0 ++ [request c img] ++ body ++
      match outcome r with
      | Returned _ => [EmitStepProgress; EndTaskRun]
      | Raised _ => []
      end.
Proof.
  cbv zeta.
  assert (Ha : exists c st1 evs0,
             acquire_client param st = (Returned c, st1, evs0) /\
             (evs0 = [] \/ evs0 = [NewClient c]) /\ client st1 = Some c).
  { destruct (client st) as [c|] eqn:Hc.
    - exists c, st, []. rewrite (acquire_client_cached _ _ _ Hc). auto.
    - eexists _, _, _. rewrite (acquire_client_fresh _ _ Hc). simpl. auto. }
  destruct Ha as (c & st1 & evs0 & Ha & Hevs0 & Hc).
  exists c, st1, evs0.
  destruct (decide (error_message resp = "")) as [He|He].
  - rewrite (run_no_service_error _ _ _ _ _ _ _ Ha He). cbv zeta.
    destruct (loop_only_for_each (enumerate (landmark_annotations resp))
                (process_landmark param) (loop_only_process_landmark param) st1)
      as (Hst & Hev).
    destruct (for_each _ _ st1) as [[[[]|e] st2] evs];
      unfold final_state, events, outcome in *; cbn [fst snd] in *; subst st2;
      exists (notice (landmark_annotations resp) ++ evs);
      (split; [exact Ha|]); (split; [exact Hevs0|]);
      (split; [exact Hc|]);
      (split; [apply Forall_app; split;
               [apply loop_only_notice|exact Hev]|]);
      cbn [app]; rewrite <- ?app_assoc, ?app_nil_r; reflexivity.
  - rewrite (run_service_error _ _ _ _ _ _ _ Ha He).
    unfold final_state, events, outcome. cbn [fst snd].
    exists []. repeat split; auto.
Qed.

Lemma loop_events_views (body : list Event) :
  Forall (fun ev => is_loop_event ev = true) body ->
  signals body = [] /\ requests body = [] /\ new_clients body = [].
Proof.
  induction 1 as [|ev body Hev _ IH]; [auto|].
  destruct IH as (H1 & H2 & H3).
  unfold signals, requests, new_clients in *.
  destruct ev; try discriminate Hev; simpl; rewrite ?H1, ?H2, ?H3; auto.
Qed.

End Shape.

(** ** The request payload *)

Section Channels.

Lemma rev_is_reverse {A} (l : list A) : rev l = reverse l.
Proof. induction l; simpl; [reflexivity|]. rewrite reverse_cons. congruence. Qed.

(** X5. Reversing the channel axis twice gives the image back, and the pixel
    at row [i], column [j] of the reversed image has at channel [k] what the
    source pixel has at channel [n - 1 - k], [n] being its number of
    channels. *)
Theorem reverse_channels_law (img : image) i j k row (px : list Z) :
  img !! i = Some row -> row !! j = Some px -> (k < length px)%nat ->
  reverse_channels (reverse_channels img) = img /\
  exists row' px',
    reverse_channels img !! i = Some row' /\ row' !! j = Some px' /\
    length px' = length px /\
    px' !! k = px !! (length px - S k)%nat.
Proof.
  intros Hi Hj Hk. split.
  - unfold reverse_channels. rewrite map_map.
    rewrite <- (map_id img) at 2. apply map_ext. intros r.
    rewrite map_map. rewrite <- (map_id r) at 2. apply map_ext.
    apply rev_involutive.
  - exists (map (@rev Z) row), (rev px).
    unfold reverse_channels.
    change (map (map (@rev Z)) img) with (map (@rev Z) <$> img).
    rewrite list_lookup_fmap, Hi. split; [reflexivity|].
    change (map (@rev Z) row) with ((@rev Z) <$> row).
    rewrite list_lookup_fmap, Hj. split; [reflexivity|].
    split; [apply length_rev|].
    rewrite rev_is_reverse. apply reverse_lookup, Hk.
Qed.

End Channels.

(** ** The client of a first run *)

Section FirstRun.
Context `{RT : Runtime}.

Lemma acquire_client_same_credentials param param' st :
  google_application_credentials param' = google_application_credentials param ->
  acquire_client param' st = acquire_client param st.
Proof. intros H. unfold acquire_client. rewrite H. reflexivity. Qed.

(** X7. When the response carries an error message, nothing else of the
    response and nothing of the parameters but the credentials path has any
    influence on the run: the annotations are never looked at. *)
Theorem service_error_ignores_the_rest param param' img resp resp' st :
  error_message resp <> "" ->
  error_message resp' = error_message resp ->
  google_application_credentials param' = google_application_credentials param ->
  run param' img resp' st = run param img resp st.
Proof.
  intros He Hm Hp.
  destruct (acquire_client_returns param st) as (c & st1 & evs0 & Ha & _).
  rewrite (run_service_error param img resp st c st1 evs0 Ha He).
  rewrite <- (acquire_client_same_credentials param param' st Hp) in Ha.
  rewrite <- Hm in He.
  rewrite (run_service_error param' img resp' st c st1 evs0 Ha He).
  rewrite Hm. reflexivity.
Qed.

End FirstRun.

(** ** Incomplete polygons *)

Section Incomplete.
Context `{RT : Runtime}.

Lemma for_each_app {A} (l1 l2 : list A) (body : A -> Py unit) st :
  for_each (l1 ++ l2) body st =
    bind (for_each l1 body) (fun _ => for_each l2 body) st.
Proof.
  revert st. induction l1 as [|x l1 IH]; intros st.
  - simpl. unfold bind, ret. destruct (for_each l2 body st) as [[o s] e].
    reflexivity.
  - simpl. unfold bind in *. destruct (body x st) as [[[[]|e] st1] evs1];
      [|reflexivity].
    rewrite IH. destruct (for_each l1 body st1) as [[[[]|e] st2] evs2].
    + destruct (for_each l2 body st2) as [[o st3] evs3].
      rewrite app_assoc. reflexivity.
    + reflexivity.
Qed.

Lemma enumerate_from_app {A} (n : nat) (l1 l2 : list A) :
  enumerate_from n (l1 ++ l2) =
    enumerate_from n l1 ++ enumerate_from (n + length l1) l2.
Proof.
  revert n. induction l1 as [|x l1 IH]; intros n; simpl.
  - rewrite Nat.add_0_r. reflexivity.
  - rewrite IH. do 3 f_equal. lia.
Qed.

Lemma process_landmark_incomplete param i a st :
  retained param a = true -> (length (bounding_poly a) < 3)%nat ->
  process_landmark param (i, a) st = (Raised IndexError, st, []).
Proof.
  intros Hr Hlen. unfold retained in Hr. apply negb_true_iff in Hr.
  unfold process_landmark. rewrite Hr.
  destruct (bounding_poly a) as [|v0 [|v1 [|v2 l]]]; simpl in Hlen;
    try lia; reflexivity.
Qed.

(** X8. With no error message, the loop stops at the first retained
    annotation whose polygon has fewer than three vertices: [run] raises
    [IndexError], the annotations before it have been handled as usual, no
    name and no box is handed over for it or for any later annotation, and
    the dictionary output is not written. *)
Theorem incomplete_polygon_stops_the_run param img resp st l1 a l2 :
  error_message resp = "" ->
  landmark_annotations resp = l1 ++ a :: l2 ->
  Forall (fun a => wf_polygon a = true) l1 ->
  retained param a = true ->
  (length (bounding_poly a) < 3)%nat ->
  let r := run param img resp st in
  outcome r = Raised IndexError /\
  map box_id (add_object_calls (events r)) =
    map fst (retained_landmarks param l1) /\
  set_names_calls (events r) =
    map (fun il => [description il.2]) (retained_landmarks param l1) /\
  output_dict_data (final_state r) = output_dict_data st.
Proof.
  intros He Hl Hwf Hr Hlen. cbv zeta.
  destruct (acquire_client_returns param st)
    as (c & st1 & evs0 & Ha & _ & _ & Hout & Hadd & Hset & _).
  assert (Hrun : run param img resp st =
            (Raised IndexError, st1,
             BeginTaskRun :: evs0 ++ [request c img] ++
             notice (l1 ++ a :: l2) ++
             flat_map (landmark_events param) (enumerate_from 0 l1))).
  { rewrite (run_no_service_error _ _ _ _ _ _ _ Ha He). cbv zeta.
    rewrite Hl. unfold enumerate. rewrite enumerate_from_app.
    cbn [enumerate_from]. rewrite for_each_app. unfold bind at 1.
    rewrite (loop_events param _ st1 (polygons_ok_enumerate param 0 l1 Hwf)).
    change (for_each ((?n, a) :: ?l) (process_landmark param) st1)
      with (bind (process_landmark param (n, a))
                 (fun _ => for_each l (process_landmark param)) st1).
    unfold bind at 1. rewrite (process_landmark_incomplete _ _ _ _ Hr Hlen).
    rewrite app_nil_r. reflexivity. }
  rewrite Hrun. unfold outcome, final_state, events. cbn [fst snd].
  destruct (notice_no_calls (l1 ++ a :: l2)) as [Hn1 Hn2].
  split; [reflexivity|].
  change (BeginTaskRun :: ?l) with ([BeginTaskRun] ++ l).
  rewrite !add_object_calls_app, !set_names_calls_app.
  rewrite Hadd, Hset, Hn1, Hn2, add_object_calls_loop, set_names_calls_loop.
  cbn [app add_object_calls set_names_calls omap].
  unfold retained_landmarks, enumerate.
  split; [|split; [reflexivity|exact Hout]].
  unfold request. simpl. rewrite map_map. reflexivity.
Qed.

End Incomplete.

(** ** Diagnostics, thresholds and repeated runs *)

Section Thresholds.
Context `{RT : Runtime}.

Lemma printed_loop param l :
  printed (flat_map (landmark_events param) l) =
    flat_map location_lines (filter (fun il => retained param il.2 = true) l).
Proof.
  unfold printed.
  induction l as [|il l IH]; [reflexivity|].
  cbn [flat_map]. rewrite omap_app, IH, filter_cons.
  unfold landmark_events. destruct (retained param il.2) eqn:Hr.
  - rewrite decide_True by reflexivity. cbn [flat_map]. f_equal.
    unfold location_lines. simpl.
    induction (locations il.2); simpl; congruence.
  - rewrite decide_False by discriminate. reflexivity.
Qed.

(** X9. A run that completes prints the notice when the service returned no
    annotation, and otherwise one line per location of each retained
    annotation, in the order of the service's list; locations of annotations
    that are filtered out are not printed. *)
Theorem run_prints param img resp st :
  error_message resp = "" ->
  Forall (fun a => wf_polygon a = true) (landmark_annotations resp) ->
  printed (events (run param img resp st)) =
    match landmark_annotations resp with
    | [] => ["No landmark detected"]
    | _ => flat_map location_lines
             (retained_landmarks param (landmark_annotations resp))
    end.
Proof.
  intros He Hwf.
  destruct (acquire_client_returns param st)
    as (c & st1 & evs0 & Ha & _ & _ & _ & _ & _ & Hpr).
  rewrite (run_completes _ _ _ _ _ _ _ Ha He (polygons_ok_enumerate _ _ _ Hwf)).
  unfold events. cbn [snd].
  change (BeginTaskRun :: ?l) with ([BeginTaskRun] ++ l).
  rewrite !printed_app, Hpr, printed_loop. unfold retained_landmarks, notice.
  destruct (landmark_annotations resp); simpl; rewrite ?app_nil_r; reflexivity.
Qed.

Lemma retained_nan param (a : EntityAnnotation) :
  is_nan (conf_thres param) || is_nan (score a) = true ->
  retained param a = true.
Proof.
  unfold retained, SFltb. intros H. apply orb_prop in H.
  destruct (score a), (conf_thres param); simpl in *;
    destruct H; try discriminate; reflexivity.
Qed.

Lemma enumerate_from_fst {A} (n : nat) (l : list A) :
  map fst (enumerate_from n l) = seq n (length l).
Proof. revert n. induction l; intros n; simpl; f_equal; auto. Qed.

Lemma filter_all {A} (P : A -> Prop) `{!forall x, Decision (P x)} (l : list A) :
  Forall P l -> filter P l = l.
Proof.
  induction 1 as [|x l Hx _ IH]; [reflexivity|].
  rewrite filter_cons, decide_True by assumption. congruence.
Qed.

(** X10. The filter only drops a score that compares below the threshold.  A
    threshold that is not a number therefore drops nothing, and an annotation
    whose score is not a number is kept: when each annotation is in one of
    these cases, a completed run hands over a box for every position. *)
Theorem nan_disables_the_filter param img resp st :
  error_message resp = "" ->
  Forall (fun a => wf_polygon a = true) (landmark_annotations resp) ->
  Forall (fun a => is_nan (conf_thres param) || is_nan (score a) = true)
         (landmark_annotations resp) ->
  map box_id (add_object_calls (events (run param img resp st))) =
    seq 0 (length (landmark_annotations resp)).
Proof.
  intros He Hwf Hnan.
  destruct (run_ok param img resp st He (polygons_ok_enumerate _ _ _ Hwf))
    as (_ & _ & _ & Hboxes & _).
  cbv zeta in Hboxes. rewrite Hboxes. unfold retained_landmarks, enumerate.
  rewrite filter_all.
  - rewrite map_map. apply (enumerate_from_fst 0).
  - apply Forall_forall. intros [i a] Hin. simpl.
    apply retained_nan. rewrite Forall_forall in Hnan. apply Hnan.
    apply list_elem_of_lookup_1 in Hin as [k Hk].
    rewrite enumerate_from_lookup in Hk.
    destruct (landmark_annotations resp !! k) as [a'|] eqn:E; [|discriminate].
    injection Hk as _ <-. eapply list_elem_of_lookup_2, E.
Qed.

Lemma SFltb_SFleb_trans (s t1 t2 : float) :
  SFltb s t1 = true -> SFleb t1 t2 = true -> SFltb s t2 = true.
Proof.
  unfold SFltb, SFleb.
  destruct s as [a | a | | a ms es], t1 as [b | b | | b m1 e1],
           t2 as [c | c | | c m2 e2]; simpl; try discriminate;
    try (destruct a, b, c; simpl; (discriminate || reflexivity || idtac)).
  all: try (destruct a, b; simpl; discriminate || reflexivity).
  all: try (destruct a, c; simpl; discriminate || reflexivity).
  all: try (destruct b, c; simpl; discriminate || reflexivity).
  all: change (Pos.compare_cont Eq) with Pos.compare.
  all: repeat match goal with
       | |- context [Z.compare ?x ?y] => destruct (Z.compare_spec x y)
       | |- context [Pos.compare ?x ?y] => destruct (Pos.compare_spec x y)
       end; simpl; try discriminate; try reflexivity; intros; exfalso; lia.
Qed.

(** X11. Raising the threshold only removes boxes: on the same response, the
    boxes of a completed run under the higher threshold are, in order, among
    the boxes of the run under the lower one. *)
Theorem higher_threshold_fewer_boxes param param' img resp st :
  error_message resp = "" ->
  Forall (fun a => wf_polygon a = true) (landmark_annotations resp) ->
  SFleb (conf_thres param) (conf_thres param') = true ->
  add_object_calls (events (run param' img resp st))
    `sublist_of` add_object_calls (events (run param img resp st)).
Proof.
  intros He Hwf Hle.
  destruct (run_ok param img resp st He (polygons_ok_enumerate _ _ _ Hwf))
    as (_ & _ & _ & Hboxes & _).
  destruct (run_ok param' img resp st He (polygons_ok_enumerate _ _ _ Hwf))
    as (_ & _ & _ & Hboxes' & _).
  cbv zeta in Hboxes, Hboxes'. rewrite Hboxes, Hboxes'.
  unfold retained_landmarks.
  rewrite <- (list_filter_filter_l
                (fun il : nat * EntityAnnotation => retained param' il.2 = true)
                (fun il => retained param il.2 = true)).
  - apply fmap_sublist, sublist_filter.
  - intros [i a]. simpl. unfold retained. intros H'.
    apply negb_true_iff in H'. apply negb_true_iff.
    destruct (SFltb (score a) (conf_thres param)) eqn:E; [|reflexivity].
    rewrite (SFltb_SFleb_trans _ _ _ E Hle) in H'. discriminate.
Qed.

Lemma new_clients_loop param l :
  new_clients (flat_map (landmark_events param) l) = [].
Proof.
  unfold new_clients. induction l as [|il l IH]; [reflexivity|].
  cbn [flat_map]. rewrite omap_app, IH, app_nil_r.
  unfold landmark_events. destruct (retained param il.2); [|reflexivity].
  simpl. induction (locations il.2); simpl; auto.
Qed.

(** X12. Running again on the same inputs from the state a completed run
    left: the second run completes too, builds no client, leaves the state
    exactly as it found it, and hands over the same names and boxes. *)
Theorem rerun_is_stable param img resp st :
  error_message resp = "" ->
  Forall (fun a => wf_polygon a = true) (landmark_annotations resp) ->
  let r1 := run param img resp st in
  let r2 := run param img resp (final_state r1) in
  outcome r2 = Returned tt /\
  final_state r2 = final_state r1 /\
  new_clients (events r2) = [] /\
  add_object_calls (events r2) = add_object_calls (events r1) /\
  set_names_calls (events r2) = set_names_calls (events r1).
Proof.
  intros He Hwf. cbv zeta.
  pose proof (polygons_ok_enumerate param 0 _ Hwf) as Hok.
  destruct (acquire_client_returns param st)
    as (c & st1 & evs0 & Ha & Hc & _ & _ & Hadd & Hset & _).
  pose proof (run_completes _ img _ _ _ _ _ Ha He Hok) as Hrun1.
  rewrite Hrun1. unfold outcome, final_state, events. cbn [fst snd].
  set (st2 := set_output_dict_data _ st1).
  assert (Hc2 : client st2 = Some c) by exact Hc.
  rewrite (run_completes _ img _ _ _ _ _
             (acquire_client_cached param st2 c Hc2) He Hok).
  cbn [fst snd].
  split; [reflexivity|]. split; [reflexivity|].
  set (body := flat_map (landmark_events param)
                 (enumerate (landmark_annotations resp))).
  pose proof (new_clients_loop param
                (enumerate (landmark_annotations resp))) as Hl.
  fold body in Hl.
  change (BeginTaskRun :: ?l) with ([BeginTaskRun] ++ l).
  rewrite !add_object_calls_app, !set_names_calls_app, Hadd, Hset.
  split; [|split; reflexivity].
  unfold new_clients in *. rewrite !omap_app, Hl.
  unfold notice. destruct (_ =? _)%nat; reflexivity.
Qed.

End Thresholds.

(** ** Sessions from any state, and tasks fresh from the factory *)

Section Sessions.
Context `{RT : Runtime}.




End Sessions.

(** ** The further properties on the sample data *)

Lemma set_values_raises_sample :
  set_values (RT := sample_runtime) partial_dict default_param =
    (Raised (KeyError "google_application_credentials"),
     {| conf_thres := f0_5; google_application_credentials := "" |}) /\
  partial_dict !! "google_application_credentials" = None.
Proof.
  assert (H : set_values (RT := sample_runtime) partial_dict default_param =
                (Raised (KeyError "google_application_credentials"),
                 {| conf_thres := f0_5; google_application_credentials := "" |}))
    by (vm_compute; reflexivity).
  split; [exact H|].
  destruct (set_values_raises (RT := sample_runtime) _ _ _ _ H)
    as [(He & _) | [(He & _) | (_ & Hk & _)]];
    [discriminate He | discriminate He | exact Hk].
Defined.

Lemma reverse_channels_law_sample :
  reverse_channels (reverse_channels sample_image) = sample_image /\
  exists row' px',
    reverse_channels sample_image !! 0%nat = Some row' /\
    row' !! 1%nat = Some px' /\ length px' = 3%nat /\
    px' !! 0%nat = Some 6.
Proof.
  destruct (reverse_channels_law sample_image 0 1 0 [[1; 2; 3]; [4; 5; 6]]
              [4; 5; 6] eq_refl eq_refl ltac:(simpl; lia))
    as (Hinv & row' & px' & H1 & H2 & H3 & H4).
  split; [exact Hinv|]. exists row', px'. auto.
Defined.

Lemma service_error_ignores_the_rest_sample :
  run (RT := sample_runtime) (in_param later_input) sample_image
      {| error_message := "Invalid image";
         landmark_annotations := [fragment; louvre] |} sample_state =
  run (RT := sample_runtime)
      {| conf_thres := f0_1; google_application_credentials := "other.json" |}
      sample_image failed_response sample_state.
Proof.
  apply (service_error_ignores_the_rest (RT := sample_runtime));
    [discriminate | reflexivity | reflexivity].
Defined.

Lemma incomplete_polygon_stops_the_run_sample :
  let r := run (RT := sample_runtime) default_param sample_image
               (ok_response [eiffel; fragment; pantheon]) sample_state in
  retained default_param fragment = true /\
  outcome r = Raised IndexError /\
  map box_id (add_object_calls (events r)) = [0%nat] /\
  set_names_calls (events r) = [ ["Eiffel Tower"] ].
Proof.
  assert (Hwf : Forall (fun a => wf_polygon a = true) [eiffel]) by all_wf.
  destruct (incomplete_polygon_stops_the_run (RT := sample_runtime)
              default_param sample_image
              (ok_response [eiffel; fragment; pantheon]) sample_state
              [eiffel] fragment [pantheon] eq_refl eq_refl Hwf eq_refl
              ltac:(simpl; lia))
    as (H1 & H2 & H3 & _).
  cbv zeta. split; [reflexivity|]. split; [exact H1|].
  split; [rewrite H2|rewrite H3]; vm_compute; reflexivity.
Defined.

Lemma run_prints_sample :
  error_message mixed_response = "" /\
  printed (events (run (RT := sample_runtime) default_param sample_image
                       mixed_response sample_state)) =
    ["Eiffel Tower, Latitude: 0.5, Longitude: 0.1"].
Proof.
  assert (Hwf : Forall (fun a => wf_polygon a = true)
                       (landmark_annotations mixed_response)) by all_wf.
  split; [reflexivity|].
  rewrite (run_prints (RT := sample_runtime) default_param sample_image
             mixed_response sample_state eq_refl Hwf).
  vm_compute. reflexivity.
Defined.

Lemma nan_disables_the_filter_sample :
  is_nan (conf_thres nan_param) = true /\
  map box_id
    (add_object_calls
       (events (run (RT := sample_runtime) nan_param sample_image
                    mixed_response sample_state))) = [0; 1; 2]%nat.
Proof.
  assert (Hwf : Forall (fun a => wf_polygon a = true)
                       (landmark_annotations mixed_response)) by all_wf.
  assert (Hnan : Forall (fun a => is_nan (conf_thres nan_param)
                                  || is_nan (score a) = true)
                        (landmark_annotations mixed_response)) by all_wf.
  split; [reflexivity|].
  exact (nan_disables_the_filter (RT := sample_runtime) nan_param sample_image
           mixed_response sample_state eq_refl Hwf Hnan).
Defined.

Lemma higher_threshold_fewer_boxes_sample :
  SFleb (conf_thres (in_param first_input))
        (conf_thres (in_param later_input)) = true /\
  add_object_calls
    (events (run (RT := sample_runtime) (in_param later_input) sample_image
                 mixed_response sample_state))
  `sublist_of`
  add_object_calls
    (events (run (RT := sample_runtime) (in_param first_input) sample_image
                 mixed_response sample_state)).
Proof.
  assert (Hwf : Forall (fun a => wf_polygon a = true)
                       (landmark_annotations mixed_response)) by all_wf.
  split; [reflexivity|].
  exact (higher_threshold_fewer_boxes (RT := sample_runtime)
           (in_param first_input) (in_param later_input) sample_image
           mixed_response sample_state eq_refl Hwf eq_refl).
Defined.

Lemma rerun_is_stable_sample :
  let r1 := run (RT := sample_runtime) default_param sample_image
                mixed_response sample_state in
  let r2 := run (RT := sample_runtime) default_param sample_image
                mixed_response (final_state r1) in
  error_message mixed_response = "" /\
  final_state r2 = final_state r1 /\ new_clients (events r2) = [].
Proof.
  assert (Hwf : Forall (fun a => wf_polygon a = true)
                       (landmark_annotations mixed_response)) by all_wf.
  destruct (rerun_is_stable (RT := sample_runtime) default_param sample_image
              mixed_response sample_state eq_refl Hwf)
    as (_ & H2 & H3 & _).
  cbv zeta. split; [reflexivity|]. split; [exact H2|exact H3].
Defined.

(** * Runs with calls that fail *)

Section FailingCalls.
Context `{RT : Runtime}.

(** The run with the response is the run with calls that return and give that
    response. *)
Lemma run_handles_response param img resp st :
  run param img resp st =
    bind (emit BeginTaskRun)
      (fun _ => bind (acquire_client param)
         (fun c => bind (emit (LandmarkDetection c
                                 (imencode_jpg (reverse_channels img))))
            (fun _ => handle_response param resp))) st.
Proof. reflexivity. Qed.

Lemma acquire_client_with_cached calls param st c :
  client st = Some c -> acquire_client_with calls param st = (Returned c, st, []).
Proof.
  intros H. unfold acquire_client_with, bind, get_state. simpl. rewrite H.
  reflexivity.
Qed.

Lemma acquire_client_with_nul calls param st :
  client st = None ->
  truthy (google_application_credentials param) = true ->
  has_nul (google_application_credentials param) = true ->
  acquire_client_with calls param st = (Raised ValueError, st, []).
Proof.
  intros Hc Ht Hn. unfold acquire_client_with, bind, get_state. simpl.
  rewrite Hc. unfold when, environ_setitem. rewrite Ht, Hn. reflexivity.
Qed.

Lemma acquire_client_with_refused calls param st e :
  client st = None ->
  truthy (google_application_credentials param) &&
    has_nul (google_application_credentials param) = false ->
  client_call calls = Some e ->
  acquire_client_with calls param st = (Raised e, after_setitem param st, []).
Proof.
  intros Hc Hn He. unfold acquire_client_with, bind, get_state. simpl.
  rewrite Hc. unfold when, environ_setitem, construct_client, after_setitem.
  rewrite He.
  destruct (truthy (google_application_credentials param)); simpl in *;
    [rewrite Hn|]; reflexivity.
Qed.

Lemma acquire_client_with_built calls param st :
  client st = None ->
  truthy (google_application_credentials param) &&
    has_nul (google_application_credentials param) = false ->
  client_call calls = None ->
  acquire_client_with calls param st = acquire_client param st.
Proof.
  intros Hc Hn He. unfold acquire_client_with, acquire_client, bind, get_state.
  simpl. rewrite Hc. unfold when, environ_setitem, construct_client.
  rewrite He.
  destruct (truthy (google_application_credentials param)); simpl in *;
    [rewrite Hn|]; reflexivity.
Qed.

Lemma acquire_client_with_cases calls param st :
  exists o st1 evs0,
    acquire_client_with calls param st = (o, st1, evs0) /\
    acquisition calls param st o st1 evs0.
Proof.
  destruct (client st) as [c|] eqn:Hc.
  - eexists _, _, _. split; [apply acquire_client_with_cached, Hc|].
    constructor. exact Hc.
  - destruct (truthy (google_application_credentials param) &&
              has_nul (google_application_credentials param)) eqn:Hn.
    + apply andb_prop in Hn as [Ht Hn].
      eexists _, _, _. split; [apply acquire_client_with_nul; assumption|].
      constructor; assumption.
    + destruct (client_call calls) as [e|] eqn:He.
      * eexists _, _, _.
        split; [apply acquire_client_with_refused; eassumption|].
        constructor; assumption.
      * pose proof (acquire_client_fresh param st Hc) as Ha. cbv zeta in Ha.
        eexists _, _, _. split.
        -- rewrite acquire_client_with_built by assumption. exact Ha.
        -- apply acq_built; assumption.
Qed.

Lemma acquisition_returned calls param st c st1 evs0 :
  acquisition calls param st (Returned c) st1 evs0 ->
  acquire_client param st = (Returned c, st1, evs0).
Proof.
  inversion 1; subst; [apply acquire_client_cached|]; assumption.
Qed.

Lemma acquisition_raised calls param st e st1 evs0 :
  acquisition calls param st (Raised e) st1 evs0 -> evs0 = [].
Proof. inversion 1; reflexivity. Qed.

Lemma run_with_course calls param img st :
  course calls param img st (run_with calls param img st).
Proof.
  destruct (acquire_client_with_cases calls param st)
    as (o & st1 & evs0 & Ha & Hacq).
  destruct o as [c|e].
  - pose proof (acquisition_returned _ _ _ _ _ _ Hacq) as Ha'.
    destruct (imencode_call calls) as [e|] eqn:Hi.
    + replace (run_with calls param img st)
        with (@Raised unit e, st1, BeginTaskRun :: evs0).
      * eapply no_payload; eassumption.
      * unfold run_with, bind, emit, imencode. rewrite Ha, Hi. simpl.
        rewrite app_nil_r. reflexivity.
    + destruct (service_call calls) as [resp|e] eqn:Hs.
      * replace (run_with calls param img st) with (run param img resp st).
        -- eapply with_answer; eassumption.
        -- rewrite run_handles_response.
           unfold run_with, bind, emit, imencode, landmark_detection, ret.
           rewrite Ha, Ha', Hi, Hs. simpl.
           destruct (handle_response param resp st1) as [[o st2] evs2].
           reflexivity.
      * replace (run_with calls param img st)
          with (@Raised unit e, st1, BeginTaskRun :: evs0 ++ [request c img]).
        -- eapply no_answer; eassumption.
        -- unfold run_with, bind, emit, imencode, landmark_detection, ret,
             raise, request.
           rewrite Ha, Hi, Hs. simpl. reflexivity.
  - pose proof (acquisition_raised _ _ _ _ _ _ Hacq) as ->.
    replace (run_with calls param img st)
      with (@Raised unit e, st1, [BeginTaskRun]).
    + apply no_client. exact Hacq.
    + unfold run_with, bind, emit. rewrite Ha. reflexivity.
Qed.

End FailingCalls.

Section FailingRuns.
Context `{RT : Runtime}.

Lemma acquisition_sound calls param st o st1 evs0 :
  acquisition calls param st o st1 evs0 ->
  acquire_client_with calls param st = (o, st1, evs0).
Proof.
  inversion 1; subst.
  - apply acquire_client_with_cached. assumption.
  - rewrite acquire_client_with_built; assumption.
  - apply acquire_client_with_nul; assumption.
  - apply acquire_client_with_refused; assumption.
Qed.

Lemma acquisition_facts calls param st o st1 evs0 :
  acquisition calls param st o st1 evs0 ->
  environ st1 = environ_written param st /\
  output_dict_data st1 = output_dict_data st /\
  match o with
  | Returned c =>
      client st1 = Some c /\
      ((client st = Some c /\ evs0 = []) \/
       (client st = None /\ evs0 = [NewClient c]))
  | Raised _ => client st1 = None /\ client st = None /\ evs0 = []
  end.
Proof.
  unfold environ_written.
  inversion 1 as [c Hc | c st1' evs0' Hc Hn He Ha | Hc Ht Hn | e Hc Hn He];
    subst.
  - rewrite Hc. repeat split; auto.
  - rewrite Hc. pose proof (acquire_client_fresh param st Hc) as Hf.
    cbv zeta in Hf. rewrite Hf in Ha. injection Ha as <- <- <-.
    cbn [environ output_dict_data client]. unfold environ_after. rewrite Hc.
    split; [|repeat split; auto].
    destruct (truthy (google_application_credentials param)); simpl in *;
      [rewrite Hn|]; reflexivity.
  - rewrite Hc, Ht, Hn. auto.
  - rewrite Hc. unfold after_setitem.
    destruct (truthy (google_application_credentials param)); simpl in *;
      [rewrite Hn|]; auto.
Qed.

Lemma first_events_views c (evs0 : list Event) :
  evs0 = [] \/ evs0 = [NewClient c] ->
  add_object_calls evs0 = [] /\ set_names_calls evs0 = [] /\
  printed evs0 = [] /\ signals evs0 = [] /\ requests evs0 = [] /\
  clients_used evs0 = [].
Proof. intros [-> | ->]; repeat split. Qed.

Lemma acquisition_first_events calls param st c st1 evs0 :
  acquisition calls param st (Returned c) st1 evs0 ->
  evs0 = [] \/ evs0 = [NewClient c].
Proof.
  intros H. destruct (acquisition_facts _ _ _ _ _ _ H)
    as (_ & _ & _ & [[_ ->] | [_ ->]]); auto.
Qed.

(** What a run leaves of the attempt at the client, whatever its course. *)
Lemma run_with_frame calls param img st :
  let r := run_with calls param img st in
  exists o st1 evs0,
    acquisition calls param st o st1 evs0 /\
    client (final_state r) = client st1 /\
    environ (final_state r) = environ st1 /\
    new_clients (events r) = new_clients evs0 /\
    (clients_used (events r) = [] \/
     exists c, o = Returned c /\ clients_used (events r) = [c]).
Proof.
  cbv zeta.
  destruct (run_with_course calls param img st)
    as [e st1 Hacq | c st1 evs0 e Hacq Hi | c st1 evs0 e Hacq Hi Hs
        | c st1 evs0 resp Hacq Ha Hi Hs].
  - exists (Raised e), st1, []. repeat split; auto.
  - exists (Returned c), st1, evs0.
    destruct (first_events_views c evs0
                (acquisition_first_events _ _ _ _ _ _ Hacq))
      as (_ & _ & _ & _ & _ & Hu).
    unfold final_state, events. cbn [fst snd].
    change (BeginTaskRun :: evs0) with ([BeginTaskRun] ++ evs0).
    unfold new_clients, clients_used in *. rewrite !omap_app, Hu.
    repeat split; auto.
  - exists (Returned c), st1, evs0.
    destruct (first_events_views c evs0
                (acquisition_first_events _ _ _ _ _ _ Hacq))
      as (_ & _ & _ & _ & _ & Hu).
    unfold final_state, events. cbn [fst snd].
    change (BeginTaskRun :: ?l) with ([BeginTaskRun] ++ l).
    unfold new_clients, clients_used, request in *. rewrite !omap_app, Hu.
    simpl. rewrite app_nil_r. repeat split; eauto.
  - exists (Returned c), st1, evs0.
    destruct (run_frame param img resp st c st1 evs0 Ha)
      as (H1 & H2 & _ & H3 & H4).
    destruct (first_events_views c evs0
                (acquisition_first_events _ _ _ _ _ _ Hacq))
      as (_ & _ & _ & _ & _ & Hu).
    cbv zeta in *. rewrite Hu in H4. repeat split; eauto.
Qed.

(** C10. Whatever the calls do and whatever the outcome, [run] leaves the
    process environment as it found it, except that a run which finds no
    client and a non-empty credentials path without a null character sets
    GOOGLE_APPLICATION_CREDENTIALS to that path; with an empty path, or with a
    client already there, the environment is unchanged. *)
Theorem run_environment calls param img st :
  let env' := environ (final_state (run_with calls param img st)) in
  let path := google_application_credentials param in
  env' =
    match client st with
    | None =>
        if truthy path && negb (has_nul path)
        then <["GOOGLE_APPLICATION_CREDENTIALS" := path]> (environ st)
        else environ st
    | Some _ => environ st
    end /\
  (path = "" \/ client st <> None -> env' = environ st) /\
  (env' <> environ st -> client st = None /\ path <> "").
Proof.
  cbv zeta.
  destruct (run_with_frame calls param img st)
    as (o & st1 & evs0 & Hacq & _ & Henv & _).
  cbv zeta in Henv.
  destruct (acquisition_facts _ _ _ _ _ _ Hacq) as (Hw & _).
  rewrite Henv, Hw. unfold environ_written.
  split; [reflexivity|]. split.
  - intros [Hp | Hc].
    + rewrite Hp. destruct (client st); reflexivity.
    + destruct (client st); [reflexivity|congruence].
  - intros Hne. destruct (client st); [congruence|]. split; [reflexivity|].
    intros Hp. rewrite Hp in Hne. simpl in Hne. congruence.
Qed.

(** C3, amended. When the service answers, [run] raises for a non-empty error
    message: the exception carries the message followed by the documentation
    pointer, no name and no box has been handed over and the dictionary output
    is as it was; and for a response with complete polygons, [run] raises only
    then.  When no answer is there, because the variable cannot be written or
    the constructor, the encoder or the service call raises, [run] raises as
    well, again with nothing handed over and nothing written. *)
Theorem run_raises_iff_service_error calls param img st :
  let r := run_with calls param img st in
  (forall resp, answered calls param st resp ->
     (error_message resp <> "" ->
        outcome r =
          Raised (Exception
                    (error_message resp +:+
                     String "010"%char
                       "For more info on error messages, check: https://cloud.google.com/apis/design/errors")) /\
        add_object_calls (events r) = [] /\
        set_names_calls (events r) = [] /\
        output_dict_data (final_state r) = output_dict_data st) /\
     (Forall (fun a => wf_polygon a = true) (landmark_annotations resp) ->
        (raises (outcome r) <-> error_message resp <> ""))) /\
  ((forall resp, ~ answered calls param st resp) ->
     raises (outcome r) /\
     add_object_calls (events r) = [] /\
     set_names_calls (events r) = [] /\
     output_dict_data (final_state r) = output_dict_data st).
Proof.
  cbv zeta.
  destruct (run_with_course calls param img st)
    as [e st1 Hacq | c st1 evs0 e Hacq Hi | c st1 evs0 e Hacq Hi Hs
        | c st1 evs0 resp Hacq Ha Hi Hs].
  - destruct (acquisition_facts _ _ _ _ _ _ Hacq) as (_ & Hout & _).
    split.
    + intros resp ((c & st2 & evs2 & Ha) & _).
      rewrite (acquisition_sound _ _ _ _ _ _ Hacq) in Ha. discriminate.
    + intros _. unfold outcome, final_state, events. cbn [fst snd].
      split; [eexists; reflexivity|auto].
  - destruct (acquisition_facts _ _ _ _ _ _ Hacq) as (_ & Hout & _).
    destruct (first_events_views c evs0
                (acquisition_first_events _ _ _ _ _ _ Hacq))
      as (Hadd & Hset & _).
    split.
    + intros resp (_ & Hi' & _). congruence.
    + intros _. unfold outcome, final_state, events. cbn [fst snd].
      change (BeginTaskRun :: evs0) with ([BeginTaskRun] ++ evs0).
      rewrite add_object_calls_app, set_names_calls_app, Hadd, Hset.
      split; [eexists; reflexivity|auto].
  - destruct (acquisition_facts _ _ _ _ _ _ Hacq) as (_ & Hout & _).
    destruct (first_events_views c evs0
                (acquisition_first_events _ _ _ _ _ _ Hacq))
      as (Hadd & Hset & _).
    split.
    + intros resp (_ & _ & Hs'). congruence.
    + intros _. unfold outcome, final_state, events. cbn [fst snd].
      change (BeginTaskRun :: ?l) with ([BeginTaskRun] ++ l).
      rewrite !add_object_calls_app, !set_names_calls_app, Hadd, Hset.
      split; [eexists; reflexivity|auto].
  - destruct (acquisition_facts _ _ _ _ _ _ Hacq) as (_ & Hout & _).
    destruct (first_events_views c evs0
                (acquisition_first_events _ _ _ _ _ _ Hacq))
      as (Hadd & Hset & _).
    assert (Herr : error_message resp <> "" ->
        outcome (run param img resp st) =
          Raised (Exception
                    (error_message resp +:+
                     String "010"%char
                       "For more info on error messages, check: https://cloud.google.com/apis/design/errors")) /\
        add_object_calls (events (run param img resp st)) = [] /\
        set_names_calls (events (run param img resp st)) = [] /\
        output_dict_data (final_state (run param img resp st)) =
          output_dict_data st).
    { intros He. rewrite (run_service_error _ _ _ _ _ _ _ Ha He).
      unfold outcome, final_state, events. cbn [fst snd].
      split; [reflexivity|].
      change (BeginTaskRun :: ?l) with ([BeginTaskRun] ++ l).
      rewrite !add_object_calls_app, !set_names_calls_app, Hadd, Hset.
      auto. }
    split.
    + intros resp' (_ & _ & Hs'). rewrite Hs in Hs'. injection Hs' as <-.
      split; [exact Herr|]. intros Hwf. split.
      * intros [e Hraise] He.
        destruct (run_ok param img resp st He
                    (polygons_ok_enumerate _ _ _ Hwf)) as (Hret & _).
        cbv zeta in Hret. congruence.
      * intros He. destruct (Herr He) as (Hraise & _). eexists. exact Hraise.
    + intros Hno. exfalso. apply (Hno resp).
      split; [|auto]. exists c, st1, evs0.
      apply (acquisition_sound _ _ _ _ _ _ Hacq).
Qed.

End FailingRuns.

(** ** The run with the response, as a course of the run with calls *)

Section Answered.
Context `{RT : Runtime}.

(** When the service answers [resp], the run is the run with that
    response. *)
Lemma run_with_answered calls param img st resp :
  answered calls param st resp ->
  run_with calls param img st = run param img resp st.
Proof.
  intros ((c0 & st0 & evs & Ha0) & Hi0 & Hs0).
  destruct (run_with_course calls param img st)
    as [e st1 Hacq | c st1 evs0 e Hacq Hi | c st1 evs0 e Hacq Hi Hs
        | c st1 evs0 resp' Hacq Ha Hi Hs].
  - rewrite (acquisition_sound _ _ _ _ _ _ Hacq) in Ha0. discriminate.
  - congruence.
  - congruence.
  - rewrite Hs in Hs0. injection Hs0 as ->. reflexivity.
Qed.

End Answered.

(** ** Sessions with calls that fail *)

Section FailingSessions.
Context `{RT : Runtime}.

Lemma run_with_cached calls param img st c :
  client st = Some c ->
  let r := run_with calls param img st in
  client (final_state r) = Some c /\
  environ (final_state r) = environ st /\
  new_clients (events r) = [] /\
  Forall (eq c) (clients_used (events r)) /\
  (length (clients_used (events r)) <= 1)%nat.
Proof.
  intros Hc. cbv zeta.
  destruct (run_with_frame calls param img st)
    as (o & st1 & evs0 & Hacq & H1 & H2 & H3 & H4).
  cbv zeta in *.
  destruct (acquisition_facts _ _ _ _ _ _ Hacq) as (Hw & _ & Ho).
  unfold environ_written in Hw. rewrite Hc in Hw.
  destruct o as [c'|e]; [|destruct Ho as (_ & Hn & _); congruence].
  destruct Ho as (Hc1 & [[Hc' ->] | [Hn _]]); [|congruence].
  assert (c' = c) by congruence. subst c'.
  rewrite H1, H2, H3, Hc1, Hw.
  repeat split; auto;
    destruct H4 as [-> | (c' & [= <-] & ->)]; repeat constructor.
Qed.

Lemma session_with_cached attempts st c :
  client st = Some c ->
  let s := run_session_with attempts st in
  client s.1 = Some c /\
  environ s.1 = environ st /\
  new_clients s.2 = [] /\
  Forall (eq c) (clients_used s.2) /\
  (length (clients_used s.2) <= length attempts)%nat.
Proof.
  revert st. induction attempts as [|a rest IH]; intros st Hc;
    [simpl; repeat split; auto|].
  cbv zeta. cbn [run_session_with].
  destruct (run_with_cached (at_calls a) (at_param a) (at_image a) st c Hc)
    as (H1 & H2 & H3 & H4 & H5).
  cbv zeta in *.
  destruct (run_with _ _ _ st) as [[o st1] evs1].
  unfold final_state, events in *. cbn [fst snd] in *.
  destruct (IH st1 H1) as (K1 & K2 & K3 & K4 & K5). cbv zeta in *.
  destruct (run_session_with rest st1) as [st2 evs2]. cbn [fst snd] in *.
  unfold new_clients, clients_used in *. rewrite !omap_app, length_app.
  rewrite H3, K3, K1, K2, H2.
  repeat split; auto; [apply Forall_app; auto|simpl; lia].
Qed.

Lemma session_clients_le attempts st :
  let s := run_session_with attempts st in
  (length (new_clients s.2) <= 1)%nat /\
  (length (clients_used s.2) <= length attempts)%nat.
Proof.
  revert st. induction attempts as [|a rest IH]; intros st;
    [simpl; lia|].
  cbv zeta. cbn [run_session_with].
  destruct (run_with_frame (at_calls a) (at_param a) (at_image a) st)
    as (o & st1 & evs0 & Hacq & H1 & _ & H3 & H4).
  cbv zeta in *.
  destruct (acquisition_facts _ _ _ _ _ _ Hacq) as (_ & _ & Ho).
  destruct (run_with _ _ _ st) as [[o' st'] evs1].
  unfold final_state, events in *. cbn [fst snd] in *.
  assert (Hu : (length (clients_used evs1) <= 1)%nat)
    by (destruct H4 as [-> | (c & _ & ->)]; simpl; lia).
  destruct o as [c|e].
  - destruct Ho as (Hc1 & _). rewrite Hc1 in H1.
    destruct (session_with_cached rest st' c H1) as (_ & _ & K3 & _ & K5).
    cbv zeta in *.
    destruct (run_session_with rest st') as [st2 evs2]. cbn [fst snd] in *.
    assert (Hn : (length (new_clients evs0) <= 1)%nat).
    { destruct (acquisition_first_events _ _ _ _ _ _ Hacq) as [-> | ->];
        simpl; lia. }
    unfold new_clients, clients_used in *. rewrite !omap_app, !length_app.
    rewrite H3, K3. simpl. lia.
  - destruct Ho as (_ & _ & ->).
    destruct (IH st') as (K1 & K2). cbv zeta in *.
    destruct (run_session_with rest st') as [st2 evs2]. cbn [fst snd] in *.
    unfold new_clients, clients_used in *. rewrite !omap_app, !length_app.
    rewrite H3. simpl. lia.
Qed.

(** C7, amended. Over any sequence of runs on a task whose client field
    starts as [None]: when the first run gets its client, that client is the
    only one built, every request of the session goes through it, and client
    and environment after the last run are those the first run left, whatever
    parameters the later runs were given.  When the first run does not get
    its client, the field stays [None], so the next run tries again with its
    own path.  In either case at most one client is built in all. *)
Theorem client_built_once first rest st :
  client st = None ->
  let r1 := run_with (at_calls first) (at_param first) (at_image first) st in
  let s := run_session_with (first :: rest) st in
  (acquires (at_calls first) (at_param first) st ->
     exists c,
       new_clients (events r1) = [c] /\
       new_clients s.2 = [c] /\
       Forall (eq c) (clients_used s.2) /\
       client s.1 = Some c /\
       client (final_state r1) = Some c /\
       environ s.1 = environ (final_state r1)) /\
  (~ acquires (at_calls first) (at_param first) st ->
     client (final_state r1) = None /\
     new_clients (events r1) = [] /\
     clients_used (events r1) = []) /\
  (length (new_clients s.2) <= 1)%nat.
Proof.
  intros Hc. cbv zeta. split; [|split].
  - intros (c & st1' & evs0' & Ha). cbn [run_session_with].
    destruct (run_with_frame (at_calls first) (at_param first)
                (at_image first) st)
      as (o & st1 & evs0 & Hacq & H1 & H2 & H3 & H4).
    cbv zeta in *.
    rewrite (acquisition_sound _ _ _ _ _ _ Hacq) in Ha.
    injection Ha as -> <- <-.
    destruct (acquisition_facts _ _ _ _ _ _ Hacq)
      as (_ & _ & Hc1 & [[Hc' _] | [_ ->]]); [congruence|].
    rewrite Hc1 in H1.
    destruct (run_with _ _ _ st) as [[o' st'] evs1].
    unfold final_state, events in *. cbn [fst snd] in *.
    destruct (session_with_cached rest st' c H1) as (K1 & K2 & K3 & K4 & _).
    cbv zeta in *.
    destruct (run_session_with rest st') as [st2 evs2]. cbn [fst snd] in *.
    exists c. unfold new_clients, clients_used in *. rewrite !omap_app.
    rewrite H3, K3. simpl. repeat split; auto.
    apply Forall_app. split; [|exact K4].
    destruct H4 as [-> | (c' & [= <-] & ->)]; repeat constructor.
  - intros Hno.
    destruct (run_with_frame (at_calls first) (at_param first)
                (at_image first) st)
      as (o & st1 & evs0 & Hacq & H1 & _ & H3 & H4).
    cbv zeta in *.
    destruct o as [c|e].
    + exfalso. apply Hno. exists c, st1, evs0.
      apply (acquisition_sound _ _ _ _ _ _ Hacq).
    + destruct (acquisition_facts _ _ _ _ _ _ Hacq) as (_ & _ & Hc1 & _ & ->).
      rewrite H1, H3, Hc1. repeat split; auto.
      destruct H4 as [-> | (c & Hc' & _)]; [reflexivity|discriminate].
  - apply (session_clients_le (first :: rest) st).
Qed.

(** X13. Over any sequence of attempts from any state, whatever the calls do,
    at most one client is built and at most one request is sent per attempt;
    when the task already holds a client, none is built, every request goes
    through that client, and client and environment stay as they were. *)
Theorem session_requests_and_clients attempts st :
  let s := run_session_with attempts st in
  (length (clients_used s.2) <= length attempts)%nat /\
  (length (new_clients s.2) <= 1)%nat /\
  (forall c, client st = Some c ->
     client s.1 = Some c /\ environ s.1 = environ st /\
     new_clients s.2 = [] /\ Forall (eq c) (clients_used s.2)).
Proof.
  cbv zeta. destruct (session_clients_le attempts st) as (H1 & H2).
  cbv zeta in *. split; [exact H2|]. split; [exact H1|].
  intros c Hc.
  destruct (session_with_cached attempts st c Hc) as (K1 & K2 & K3 & K4 & _).
  auto.
Qed.

End FailingSessions.

(** ** The shape of a run with calls that fail *)

Section FailingShape.
Context `{RT : Runtime}.

Lemma progress_steps_app (e1 e2 : list Event) :
  progress_steps (e1 ++ e2) = (progress_steps e1 + progress_steps e2)%nat.
Proof. unfold progress_steps. rewrite omap_app, length_app. reflexivity. Qed.

Lemma loop_events_progress (body : list Event) :
  Forall (fun ev => is_loop_event ev = true) body -> progress_steps body = 0%nat.
Proof.
  unfold progress_steps.
  induction 1 as [|ev body Hev _ IH]; [reflexivity|].
  destruct ev; try discriminate Hev; simpl; exact IH.
Qed.

Lemma first_events_progress c (evs0 : list Event) :
  evs0 = [] \/ evs0 = [NewClient c] -> progress_steps evs0 = 0%nat.
Proof. intros [-> | ->]; reflexivity. Qed.

(** X3. [begin_task_run] is the first thing every run does.  A run that
    returns ends with [emit_step_progress] followed by [end_task_run], with no
    other call of the three in between, so the steps emitted are the one
    [get_progress_steps] announces; a run that raises, wherever it does,
    makes no further call of the three. *)
Theorem run_signals calls param img st :
  let r := run_with calls param img st in
  exists rest,
    events r = BeginTaskRun :: rest /\
    match outcome r with
    | Returned _ =>
        (exists mid, rest = mid ++ [EmitStepProgress; EndTaskRun] /\
                     signals mid = []) /\
        Z.of_nat (progress_steps (events r)) = get_progress_steps
    | Raised _ => signals rest = [] /\ progress_steps (events r) = 0%nat
    end.
Proof.
  cbv zeta.
  destruct (run_with_course calls param img st)
    as [e st1 Hacq | c st1 evs0 e Hacq Hi | c st1 evs0 e Hacq Hi Hs
        | c st1 evs0 resp Hacq Ha Hi Hs].
  - exists []. unfold outcome, events. cbn [fst snd]. repeat split.
  - pose proof (acquisition_first_events _ _ _ _ _ _ Hacq) as H0.
    destruct (first_events_views c evs0 H0) as (_ & _ & _ & Hs & _).
    exists evs0. unfold outcome, events. cbn [fst snd].
    split; [reflexivity|]. split; [exact Hs|].
    change (BeginTaskRun :: evs0) with ([BeginTaskRun] ++ evs0).
    rewrite progress_steps_app, (first_events_progress c evs0 H0). reflexivity.
  - pose proof (acquisition_first_events _ _ _ _ _ _ Hacq) as H0.
    destruct (first_events_views c evs0 H0) as (_ & _ & _ & Hsg & _).
    exists (evs0 ++ [request c img]). unfold outcome, events. cbn [fst snd].
    split; [reflexivity|]. split.
    + unfold signals in *. rewrite omap_app, Hsg. reflexivity.
    + change (BeginTaskRun :: ?l) with ([BeginTaskRun] ++ l).
      rewrite !progress_steps_app, (first_events_progress c evs0 H0).
      reflexivity.
  - destruct (run_shape param img resp st)
      as (c' & st1' & evs0' & body & _ & H0 & _ & Hbody & Hev).
    cbv zeta in Hev.
    destruct (first_events_views c' evs0' H0) as (_ & _ & _ & Hsg & _).
    destruct (loop_events_views body Hbody) as (Hsb & _ & _).
    rewrite Hev. eexists. split; [reflexivity|].
    destruct (outcome (run param img resp st)).
    + split.
      * exists (evs0' ++ [request c' img] ++ body).
        split; [rewrite <- !app_assoc; reflexivity|].
        unfold signals in *. rewrite !omap_app, Hsg, Hsb. reflexivity.
      * rewrite !progress_steps_app, (first_events_progress c' evs0' H0),
          (loop_events_progress body Hbody). reflexivity.
    + split.
      * unfold signals in *. rewrite !omap_app, Hsg, Hsb. reflexivity.
      * rewrite !progress_steps_app, (first_events_progress c' evs0' H0),
          (loop_events_progress body Hbody). reflexivity.
Qed.

(** X4. A run sends at most one request.  It sends exactly one, through the
    client the task holds afterwards and with the JPEG encoding of the image
    with its channel axis reversed, when it gets its client and the encoder
    returns, whatever happens after; it sends none otherwise. *)
Theorem run_sends_one_request calls param img st :
  let r := run_with calls param img st in
  (acquires calls param st /\ imencode_call calls = None ->
     exists c, client (final_state r) = Some c /\
               requests (events r) =
                 [(c, imencode_jpg (reverse_channels img))]) /\
  (~ (acquires calls param st /\ imencode_call calls = None) ->
     requests (events r) = []).
Proof.
  cbv zeta.
  destruct (run_with_course calls param img st)
    as [e st1 Hacq | c st1 evs0 e Hacq Hi | c st1 evs0 e Hacq Hi Hs
        | c st1 evs0 resp Hacq Ha Hi Hs].
  - split; [|reflexivity].
    intros ((c & st2 & evs2 & Ha) & _).
    rewrite (acquisition_sound _ _ _ _ _ _ Hacq) in Ha. discriminate.
  - split; [intros (_ & Hi'); congruence|]. intros _.
    destruct (first_events_views c evs0
                (acquisition_first_events _ _ _ _ _ _ Hacq))
      as (_ & _ & _ & _ & Hr & _).
    unfold events. cbn [snd].
    change (BeginTaskRun :: evs0) with ([BeginTaskRun] ++ evs0).
    unfold requests in *. rewrite omap_app, Hr. reflexivity.
  - destruct (first_events_views c evs0
                (acquisition_first_events _ _ _ _ _ _ Hacq))
      as (_ & _ & _ & _ & Hr & _).
    destruct (acquisition_facts _ _ _ _ _ _ Hacq) as (_ & _ & Hc1 & _).
    split.
    + intros _. exists c. unfold final_state, events. cbn [fst snd].
      split; [exact Hc1|].
      change (BeginTaskRun :: ?l) with ([BeginTaskRun] ++ l).
      unfold requests in *. rewrite !omap_app, Hr. reflexivity.
    + intros Hno. exfalso. apply Hno. split; [|exact Hi].
      exists c, st1, evs0. apply (acquisition_sound _ _ _ _ _ _ Hacq).
  - split.
    + intros _.
      destruct (run_shape param img resp st)
        as (c' & st1' & evs0' & body & _ & H0 & Hc' & Hbody & Hev).
      cbv zeta in *. exists c'. split; [exact Hc'|]. rewrite Hev.
      destruct (first_events_views c' evs0' H0) as (_ & _ & _ & _ & Hr & _).
      destruct (loop_events_views body Hbody) as (_ & Hrb & _).
      unfold requests in *. rewrite !omap_app, Hr, Hrb.
      destruct (outcome (run param img resp st)); reflexivity.
    + intros Hno. exfalso. apply Hno. split; [|exact Hi].
      exists c, st1, evs0. apply (acquisition_sound _ _ _ _ _ _ Hacq).
Qed.

(** X6. A run that finds no client, whose credentials path has no null
    character and whose constructor returns, builds exactly one client,
    numbered after the clients the process built before.  The variable is
    written before the constructor is called: the environment the client is
    built in is the one the run leaves, which names the configured path when
    it is non-empty and whatever it named before otherwise. *)
Theorem first_run_client calls param img st :
  client st = None ->
  has_nul (google_application_credentials param) = false ->
  client_call calls = None ->
  let r := run_with calls param img st in
  exists c,
    client (final_state r) = Some c /\
    new_clients (events r) = [c] /\
    client_serial c = clients_built st /\
    client_credentials c = environ (final_state r) !! credentials_var /\
    client_credentials c =
      if truthy (google_application_credentials param)
      then Some (google_application_credentials param)
      else environ st !! credentials_var.
Proof.
  intros Hc Hn He. cbv zeta.
  destruct (run_with_frame calls param img st)
    as (o & st1 & evs0 & Hacq & H1 & H2 & H3 & _).
  cbv zeta in *.
  assert (Hb : truthy (google_application_credentials param) &&
               has_nul (google_application_credentials param) = false)
    by (rewrite Hn; apply andb_false_r).
  pose proof (acquire_client_with_built calls param st Hc Hb He) as Hw.
  pose proof (acquire_client_fresh param st Hc) as Hf. cbv zeta in Hf.
  rewrite Hf in Hw.
  rewrite (acquisition_sound _ _ _ _ _ _ Hacq) in Hw.
  injection Hw as -> -> ->.
  rewrite H1, H2, H3. cbn [client environ].
  eexists. split; [reflexivity|]. split; [reflexivity|].
  split; [reflexivity|]. split; [reflexivity|].
  simpl. unfold environ_after. rewrite Hc.
  destruct (truthy (google_application_credentials param));
    [apply lookup_insert_eq|reflexivity].
Qed.

End FailingShape.

(** ** The class names of the task *)

Section ClassNames.
Context `{RT : Runtime}.



End ClassNames.

(** ** Runs with calls that fail, on the sample data *)

Lemma run_raises_iff_service_error_sample :
  let r := run_with (RT := sample_runtime) (returning failed_response)
             default_param sample_image sample_state in
  answered (returning failed_response) default_param
           sample_state failed_response /\
  outcome r =
    Raised (Exception
              ("Invalid image" +:+
               String "010"%char
                 "For more info on error messages, check: https://cloud.google.com/apis/design/errors")) /\
  raises (outcome r) /\
  add_object_calls (events r) = [] /\
  output_dict_data (final_state r) = ∅.
Proof.
  assert (Hans : answered (returning failed_response)
                   default_param sample_state failed_response).
  { split; [|split; reflexivity]. eexists _, _, _. reflexivity. }
  assert (Hwf : Forall (fun a => wf_polygon a = true)
                       (landmark_annotations failed_response)) by all_wf.
  assert (He : error_message failed_response <> "") by discriminate.
  destruct (run_raises_iff_service_error (RT := sample_runtime)
              (returning failed_response) default_param sample_image
              sample_state) as (Hresp & _).
  destruct (Hresp failed_response Hans) as (Herr & Hiff).
  destruct (Herr He) as (Hexn & Hadd & _ & Hdata).
  cbv zeta. split; [exact Hans|]. split; [exact Hexn|].
  split; [apply (Hiff Hwf), He|]. split; [exact Hadd|exact Hdata].
Defined.

(** C3, as stated, fails: the service answers without an error message, and
    the run raises all the same, at the annotation whose polygon stops after
    two vertices. *)
Lemma run_raises_without_service_error :
  let resp := ok_response [eiffel; fragment; pantheon] in
  let r := run_with (RT := sample_runtime) (returning resp) default_param
             sample_image sample_state in
  ~ (answered (returning resp) default_param
       sample_state resp ->
     (raises (outcome r) <-> error_message resp <> "")).
Proof.
  cbv zeta. intros H.
  assert (Hans : answered (returning (ok_response [eiffel; fragment; pantheon]))
                   default_param sample_state
                   (ok_response [eiffel; fragment; pantheon])).
  { split; [|split; reflexivity]. eexists _, _, _. reflexivity. }
  destruct (H Hans) as [Hraise _]. apply Hraise; [|reflexivity].
  exists IndexError. vm_compute. reflexivity.
Qed.

(** The same with no answer at all: a credentials path with a null character
    stops the first run at the assignment to the environment. *)
Lemma run_raises_at_the_environment :
  let r := run_with (RT := sample_runtime) (at_calls nul_attempt)
             (at_param nul_attempt) (at_image nul_attempt) sample_state in
  outcome r = Raised ValueError /\
  client (final_state r) = None /\
  environ (final_state r) !! credentials_var = None /\
  events r = [BeginTaskRun].
Proof. vm_compute. repeat split. Qed.

(** And with an image the encoder rejects: the client is built, no request
    is sent. *)
Lemma run_raises_at_the_encoder :
  let r := run_with (RT := sample_runtime) unencodable default_param
             sample_image sample_state in
  outcome r = Raised (LibraryError "cv2.error" "") /\
  requests (events r) = [] /\
  length (new_clients (events r)) = 1%nat.
Proof. vm_compute. repeat split. Qed.



Lemma client_built_once_sample :
  let s := run_session_with (RT := sample_runtime)
             [key_attempt; other_attempt; other_attempt] sample_state in
  client sample_state = None /\
  acquires (at_calls key_attempt) (at_param key_attempt)
           sample_state /\
  exists c, new_clients s.2 = [c] /\ client s.1 = Some c /\
            Forall (eq c) (clients_used s.2).
Proof.
  assert (Hacq : acquires (at_calls key_attempt)
                   (at_param key_attempt) sample_state)
    by (eexists _, _, _; reflexivity).
  destruct (client_built_once (RT := sample_runtime) key_attempt
              [other_attempt; other_attempt] sample_state eq_refl)
    as (Hok & _ & _).
  destruct (Hok Hacq) as (c & _ & Hn & Hu & Hc & _).
  cbv zeta. split; [reflexivity|]. split; [exact Hacq|].
  exists c. auto.
Defined.

(** C7, as stated, fails: a first run that stops at the assignment to the
    environment builds no client, and the second run, given another path,
    writes that path and builds the client. *)
Lemma client_not_built_in_a_failed_first_run :
  let r1 := run_with (RT := sample_runtime) (at_calls nul_attempt)
              (at_param nul_attempt) (at_image nul_attempt) sample_state in
  let s := run_session_with (RT := sample_runtime) [nul_attempt; key_attempt]
             sample_state in
  ~ ((exists c, new_clients (events r1) = [c]) /\
     environ s.1 = environ (final_state r1)).
Proof.
  cbv zeta. intros [(c & H) _]. vm_compute in H. discriminate H.
Qed.

Lemma later_path_is_written_after_a_failed_first_run :
  let r1 := run_with (RT := sample_runtime) (at_calls nul_attempt)
              (at_param nul_attempt) (at_image nul_attempt) sample_state in
  let s := run_session_with (RT := sample_runtime) [nul_attempt; key_attempt]
             sample_state in
  environ (final_state r1) !! credentials_var = None /\
  environ s.1 !! credentials_var = Some "key.json" /\
  length (new_clients s.2) = 1%nat.
Proof. vm_compute. repeat split. Qed.

Lemma first_run_client_sample :
  let r := run_with (RT := sample_runtime) (at_calls other_attempt)
             (at_param other_attempt) (at_image other_attempt) sample_state in
  client sample_state = None /\
  has_nul "other.json" = false /\
  exists c, client (final_state r) = Some c /\
            client_credentials c = Some "other.json".
Proof.
  destruct (first_run_client (RT := sample_runtime) (at_calls other_attempt)
              (at_param other_attempt) (at_image other_attempt) sample_state
              eq_refl eq_refl eq_refl)
    as (c & H1 & _ & _ & _ & H5).
  cbv zeta. split; [reflexivity|]. split; [reflexivity|].
  exists c. split; [exact H1|exact H5].
Defined.
